(** * AI video generator: a model of [main.py] and its checked properties

The development follows the single source file [main.py]
(class [AIVideoGenerator]).  Python floats are read as exact
rationals ([Q]), Python integers as [Z], lists as [list] with the
source's explicit bounds tests, and the calls into PIL, numpy,
moviepy and pyttsx3 as operations of an explicit external world
that may raise. *)

From Stdlib Require Import ZArith QArith Qround Lia Lqa.
From stdpp Require Import base list strings pretty.

#[local] Open Scope Z_scope.

(** ** Python numerics *)

Module Py.

(** [int(x)] on a float: truncation toward zero. *)
Definition int (x : Q) : Z := Z.quot (Qnum x) (Z.pos (Qden x)).

(** [a // b] on integers: floor division. *)
Definition floordiv (a b : Z) : Z := a / b.

(** [a % b] on integers: the result has the sign of [b]. *)
Definition mod_ (a b : Z) : Z := a mod b.

End Py.

(** ** Camera effects of [create_scene] *)

Module Camera.

(** [zoom_factor = 1 + (t / duration) * 0.2] *)
Definition zoom_factor (duration t : Q) : Q := (1 + (t / duration) * (2 # 10))%Q.

(** The crop window of [zoom_in]: [(top, left, new_h, new_w)]. *)
Record window := Window { top : Z; left : Z; new_h : Z; new_w : Z }.

Definition crop_window (h w : Z) (factor : Q) : window :=
  let new_h := Py.int (inject_Z h / factor) in
  let new_w := Py.int (inject_Z w / factor) in
  let top := Py.floordiv (h - new_h) 2 in
  let left := Py.floordiv (w - new_w) 2 in
  Window top left new_h new_w.

Definition zoom_window (duration : Q) (h w : Z) (t : Q) : window :=
  crop_window h w (zoom_factor duration t).

(** [shift = int((t / duration) * w * 0.1)] *)
Definition pan_shift (duration : Q) (w : Z) (t : Q) : Z :=
  Py.int ((t / duration) * inject_Z w * (1 # 10))%Q.

(** *** Frames: numpy arrays of shape [(h, w, 3)] as lists of rows *)

Section Frames.
Context {Pixel : Type}.

#[local] Abbreviation frame := (list (list Pixel)).

(** [frame.shape[:2]] *)
Definition shape (fr : frame) : Z * Z :=
  (Z.of_nat (length fr),
   Z.of_nat (match fr with [] => 0%nat | row :: _ => length row end)).

(** Every row has the width that [shape] reports. *)
Definition rectangular (fr : frame) : Prop :=
  Forall (fun row => Z.of_nat (length row) = (shape fr).2) fr.

(** A slice bound as Python normalises it for a sequence of length [n]:
    negative bounds count from the end, all bounds are clamped. *)
Definition slice_bound (n i : Z) : Z :=
  if i <? 0 then Z.max (i + n) 0 else Z.min i n.

(** [l[i:j]] *)
Definition slice {A} (l : list A) (i j : Z) : list A :=
  let n := Z.of_nat (length l) in
  let lo := slice_bound n i in
  let hi := slice_bound n j in
  take (Z.to_nat (hi - lo)) (drop (Z.to_nat lo) l).

(** [frame[top:top+new_h, left:left+new_w]] *)
Definition crop (fr : frame) (win : window) : frame :=
  (fun row => slice row (left win) (left win + new_w win))
    <$> slice fr (top win) (top win + new_h win).

(** [np.roll(l, shift)] along one axis: with [offset = shift % n],
    the last [offset] entries move to the front. *)
Definition roll {A} (l : list A) (shift : Z) : list A :=
  let n := Z.of_nat (length l) in
  let offset := Py.mod_ shift (if n =? 0 then 1 else n) in
  if offset =? 0 then l
  else drop (Z.to_nat (n - offset)) l ++ take (Z.to_nat (n - offset)) l.

(** [np.roll(frame, shift, axis=1)] *)
Definition roll_columns (fr : frame) (shift : Z) : frame :=
  (fun row => roll row shift) <$> fr.

(** The resampling [Image.fromarray(cropped).resize((w, h), LANCZOS)]
    is PIL's; it is a parameter of the model. *)
Variable resize : frame -> Z -> Z -> frame.

(** The frame transform [zoom_in] passed to [clip.fl]; [fr] is
    [get_frame(t)]. *)
Definition zoom_in (duration : Q) (fr : frame) (t : Q) : frame :=
  let '(h, w) := shape fr in
  let cropped := crop fr (zoom_window duration h w t) in
  resize cropped w h.

(** The frame transform [pan_right]. *)
Definition pan_right (duration : Q) (fr : frame) (t : Q) : frame :=
  let '(h, w) := shape fr in
  let shift := pan_shift duration w t in
  if 0 <? shift then roll_columns fr (- shift) else fr.

End Frames.

End Camera.

(** ** Python values, exceptions and the external world *)

(** The exceptions the program can meet; all are subclasses of
    [Exception].  [ImportError] is told apart because [text_to_speech]
    handles it in a handler of its own. *)
Inductive exception :=
  | ImportError (msg : string)
  | IndexError (msg : string)
  | OtherError (msg : string).

(** [str(e)] *)
Definition exception_str (e : exception) : string :=
  match e with ImportError m | IndexError m | OtherError m => m end.

Inductive result (A : Type) :=
  | Return (a : A)
  | Raise (e : exception).
Arguments Return {A} a.
Arguments Raise {A} e.

(** Truth value of a string and of an optional value as Python tests it:
    [None] and the empty string or list are false. *)
Definition truthy_str (s : string) : bool :=
  match s with EmptyString => false | _ => true end.

Definition truthy_opt_str (o : option string) : bool :=
  match o with Some s => truthy_str s | None => false end.

Definition truthy_list {A} (l : list A) : bool :=
  match l with [] => false | _ => true end.

Definition truthy_opt_list {A} (o : option (list A)) : bool :=
  match o with Some l => truthy_list l | None => false end.

(** [l[i]] for a non-negative index. *)
Definition py_index {A} (l : list A) (i : nat) : result A :=
  match l !! i with
  | Some x => Return x
  | None => Raise (IndexError "list index out of range")
  end.

(** [range(n)] *)
Definition range (n : Z) : list Z := seqZ 0 n.

(** [enumerate(l, start)] *)
Fixpoint enumerate_from {A} (start : nat) (l : list A) : list (nat * A) :=
  match l with
  | [] => []
  | x :: rest => (start, x) :: enumerate_from (S start) rest
  end.

(** [enumerate(l)] *)
Definition enumerate {A} (l : list A) : list (nat * A) := enumerate_from 0 l.

(** [x < y] on floats. *)
Definition Qltb (x y : Q) : bool := negb (Qle_bool y x).

(** Colours as the program passes them to PIL: a triple, a single band
    value, or a colour name. *)
Inductive ink :=
  | rgb (r g b : Z)
  | band (v : Z)
  | named (name : string).

(** ** Scene clips *)

(** The frame transform attached with [clip.fl]; each closure keeps the
    [duration] it was made with. *)
Inductive frame_transform :=
  | zoom_in_fl (duration : Q)
  | pan_right_fl (duration : Q).

Inductive fade := fadein (d : Q) | fadeout (d : Q).

(** A scene clip: the [ImageClip] and what the program sets on it. *)
Record scene_clip (Pixel AudioClip : Type) := SceneClip {
  clip_image_path : string;
  clip_frame : list (list Pixel);
  clip_duration : Q;
  clip_fl : option frame_transform;
  clip_fades : list fade;
  clip_audio : option AudioClip;
}.

Arguments SceneClip {Pixel AudioClip}.
Arguments clip_image_path {Pixel AudioClip}.
Arguments clip_frame {Pixel AudioClip}.
Arguments clip_duration {Pixel AudioClip}.
Arguments clip_fl {Pixel AudioClip}.
Arguments clip_fades {Pixel AudioClip}.
Arguments clip_audio {Pixel AudioClip}.

Section SceneClips.
Context {Pixel AudioClip : Type}.

(** [clip.set_audio(audio)] *)
Definition set_audio (clip : scene_clip Pixel AudioClip) (audio : AudioClip)
    : scene_clip Pixel AudioClip :=
  SceneClip (clip_image_path clip) (clip_frame clip) (clip_duration clip)
            (clip_fl clip) (clip_fades clip) (Some audio).

Definition add_fade (clip : scene_clip Pixel AudioClip) (f : fade)
    : scene_clip Pixel AudioClip :=
  SceneClip (clip_image_path clip) (clip_frame clip) (clip_duration clip)
            (clip_fl clip) (clip_fades clip ++ [f]) (clip_audio clip).

End SceneClips.

(** The libraries the program calls.  Operations on in-memory rasters and
    clips are functions; operations that read or write files, fonts or
    devices act on a [World] and may raise. *)
Class Externals := {
  World : Type;
  Pixel : Type;
  Img : Type;
  Font : Type;
  Engine : Type;
  AudioClip : Type;
  Video : Type;
  (* Python *)
  hash : string -> Z;
  path_exists : string -> World -> bool;
  (* PIL *)
  Image_new : string -> Z * Z -> ink -> Img;
  Image_size : Img -> Z * Z;
  GaussianBlur : Z -> Img -> Img;
  Image_blend : Img -> Img -> Q -> Img;
  Image_composite : Img -> Img -> Img -> Img;
  draw_line : Img -> Z * Z -> Z * Z -> ink -> Img;
  draw_rectangle : Img -> Z * Z * Z * Z -> ink -> Img;
  draw_textbbox : Img -> Z * Z -> string -> Font -> Z * Z * Z * Z;
  draw_text : Img -> Z * Z -> string -> Font -> ink -> Img;
  ImageFont_truetype : string -> Z -> World -> result Font * World;
  ImageFont_load_default : World -> result Font * World;
  Image_save : Img -> string -> World -> result unit * World;
  Image_resize : list (list Pixel) -> Z -> Z -> list (list Pixel);
  (* pyttsx3 *)
  import_pyttsx3 : World -> result unit * World;
  pyttsx3_init : World -> result Engine * World;
  setProperty : Engine -> string -> Q -> World -> result unit * World;
  save_to_file : Engine -> string -> string -> World -> result unit * World;
  runAndWait : Engine -> World -> result unit * World;
  (* moviepy *)
  ImageClip : string -> World -> result (list (list Pixel)) * World;
  AudioFileClip : string -> World -> result AudioClip * World;
  audio_duration : AudioClip -> Q;
  audio_loop : AudioClip -> Q -> World -> result AudioClip * World;
  audio_subclip : AudioClip -> Q -> Q -> World -> result AudioClip * World;
  volumex : AudioClip -> Q -> World -> result AudioClip * World;
  CompositeAudioClip : list AudioClip -> World -> result AudioClip * World;
  concatenate_videoclips :
    list (scene_clip Pixel AudioClip) -> string -> World -> result Video * World;
  video_duration : Video -> Q;
  video_audio : Video -> option AudioClip;
  video_set_audio : Video -> AudioClip -> Video;
  write_videofile :
    Video -> string -> Z -> string -> string -> World -> result unit * World;
}.

(** ** The monad of the program: state and exceptions *)

(** What a run can change: the world outside and the lines printed. *)
Record state_of (W : Type) := State { world : W; stdout : list string }.
Arguments State {W}.
Arguments world {W}.
Arguments stdout {W}.

Section Program.
Context `{E : Externals}.

Definition state : Type := state_of World.

Definition M (A : Type) : Type := state -> result A * state.

#[export] Instance M_ret : MRet M := fun A a s => (Return a, s).

#[export] Instance M_bind : MBind M := fun A B f m s =>
  match m s with
  | (Return a, s') => f a s'
  | (Raise e, s') => (Raise e, s')
  end.

(** [try: body  except Exception as e: handler e]; a bare [except:] is the
    same on the exceptions of the model. *)
Definition try_except {A} (body : M A) (handler : exception -> M A) : M A :=
  fun s =>
    match body s with
    | (Return a, s') => (Return a, s')
    | (Raise e, s') => handler e s'
    end.

(** A call into a library that acts on the world. *)
Definition call {A} (op : World -> result A * World) : M A :=
  fun s => let '(r, w) := op (world s) in (r, State w (stdout s)).

(** A pure computation that may raise. *)
Definition lift {A} (r : result A) : M A := fun s => (r, s).

(** [os.path.exists(path)] *)
Definition os_path_exists (path : string) : M bool :=
  fun s => (Return (path_exists path (world s)), s).

(** [print(msg)] *)
Definition print (msg : string) : M unit :=
  fun s => (Return tt, State (world s) (stdout s ++ [msg])).

(** [for x in items: acc = body x acc] *)
Fixpoint for_each {A B} (items : list A) (body : A -> B -> M B) (acc : B) : M B :=
  match items with
  | [] => mret acc
  | x :: rest => acc' ← body x acc; for_each rest body acc'
  end.

(** ** [class AIVideoGenerator] *)

(** [self]: the two directories set by [__init__]. *)
Record generator := Generator { output_dir : string; temp_dir : string }.

(** [directory / name], as a string *)
Definition path_join (directory name : string) : string :=
  directory +:+ "/" +:+ name.

(** *** [generate_image_from_prompt] and its helpers *)

(** [(hash(prompt) % 200 + 50, (hash(prompt) * 2) % 200 + 50,
      (hash(prompt) * 3) % 200 + 50)] *)
Definition base_color (prompt : string) : Z * Z * Z :=
  (Py.mod_ (hash prompt) 200 + 50,
   Py.mod_ (hash prompt * 2) 200 + 50,
   Py.mod_ (hash prompt * 3) 200 + 50).

Definition ink_of (c : Z * Z * Z) : ink :=
  let '(r, g, b) := c in rgb r g b.

(** [_add_gradient] *)
Definition _add_gradient (img : Img) (base : Z * Z * Z) : Img :=
  let '(width, height) := Image_size img in
  let gradient := Image_new "RGB" (width, height) (band 0) in
  let shade (progress : Q) (c : Z) : Z :=
    Py.int (inject_Z c * (1 - progress * (5 # 10)))%Q in
  let gradient :=
    foldl (fun g y =>
             let progress := (inject_Z y / inject_Z height)%Q in
             let '(r, g', b) := base in
             draw_line g (0, y) (width, y)
               (rgb (shade progress r) (shade progress g') (shade progress b)))
          gradient (range height) in
  Image_blend img gradient (7 # 10).

(** [_add_vignette] *)
Definition _add_vignette (img : Img) : Img :=
  let '(width, height) := Image_size img in
  let mask := Image_new "L" (width, height) (band 0) in
  let mask :=
    foldl (fun m i => draw_rectangle m (i, i, width - i, height - i) (band i))
          mask (range 255) in
  let mask := GaussianBlur 100 mask in
  let overlay := Image_new "RGB" (width, height) (rgb 0 0 0) in
  Image_composite img overlay mask.

(** [_draw_text_with_outline]; the drawing handle is the image it draws on. *)
Definition _draw_text_with_outline (img : Img) (text : string)
    (position : Z * Z) (font : Font) (fill_color outline_color : ink)
    (outline_width : Z) : Img :=
  let '(x, y) := position in
  let '(x0, y0, x1, y1) := draw_textbbox img (0, 0) text font in
  let text_width := x1 - x0 in
  let text_height := y1 - y0 in
  let x := x - Py.floordiv text_width 2 in
  let y := y - Py.floordiv text_height 2 in
  let offsets := seqZ (- outline_width) (2 * outline_width + 1) in
  let img :=
    foldl (fun im adj_x =>
             foldl (fun im' adj_y =>
                      draw_text im' (x + adj_x, y + adj_y) text font outline_color)
                   im offsets)
          img offsets in
  draw_text img (x, y) text font fill_color.

(** The chain [if visual_effect == "blur": ... elif "gradient": ...
    elif "vignette": ...] with no [else]. *)
Definition apply_visual_effect (visual_effect : string) (img : Img)
    (base : Z * Z * Z) : Img :=
  if String.eqb visual_effect "blur" then GaussianBlur 15 img
  else if String.eqb visual_effect "gradient" then _add_gradient img base
  else if String.eqb visual_effect "vignette" then _add_vignette img
  else img.

(** The nested [try]/[except] that picks the two fonts. *)
Definition load_fonts : M (Font * Font) :=
  try_except
    (title_font ← call (ImageFont_truetype "arial.ttf" 70);
     overlay_font ← call (ImageFont_truetype "arial.ttf" 55);
     mret (title_font, overlay_font))
    (fun _ =>
       try_except
         (title_font ← call (ImageFont_truetype
            "/usr/share/fonts/truetype/dejavu/DejaVuSans-Bold.ttf" 70);
          overlay_font ← call (ImageFont_truetype
            "/usr/share/fonts/truetype/dejavu/DejaVuSans-Bold.ttf" 55);
          mret (title_font, overlay_font))
         (fun _ =>
            title_font ← call ImageFont_load_default;
            overlay_font ← call ImageFont_load_default;
            mret (title_font, overlay_font))).

(** The file [scene_{index}.png] in the scratch directory. *)
Definition scene_path (self : generator) (index : nat) : string :=
  path_join (temp_dir self) ("scene_" +:+ pretty index +:+ ".png").

Definition generate_image_from_prompt (self : generator) (prompt : string)
    (index : nat) (text_overlay : option string) (visual_effect : string)
    : M string :=
  let base := base_color prompt in
  let img := Image_new "RGB" (1920, 1080) (ink_of base) in
  let img := apply_visual_effect visual_effect img base in
  '(title_font, overlay_font) ← load_fonts;
  let text := "Scene " +:+ pretty (index + 1)%nat in
  let img := _draw_text_with_outline img text (960, 350) title_font
               (named "white") (named "black") 4 in
  let img :=
    match text_overlay with
    | Some overlay =>
        if truthy_str overlay
        then _draw_text_with_outline img overlay (960, 540) overlay_font
               (named "white") (named "black") 4
        else img
    | None => img
    end in
  let img_path := scene_path self index in
  call (Image_save img img_path);;
  mret img_path.

(** *** [create_scene] *)

(** The frame of a clip at time [t], before the fades. *)
Definition get_frame (clip : scene_clip Pixel AudioClip) (t : Q) : list (list Pixel) :=
  match clip_fl clip with
  | Some (zoom_in_fl duration) =>
      Camera.zoom_in Image_resize duration (clip_frame clip) t
  | Some (pan_right_fl duration) =>
      Camera.pan_right duration (clip_frame clip) t
  | None => clip_frame clip
  end.

Definition create_scene (image_path : string) (duration : Q)
    (effect : string) : M (scene_clip Pixel AudioClip) :=
  frame ← call (ImageClip image_path);
  let clip := SceneClip image_path frame duration None [] None in
  let clip :=
    if String.eqb effect "zoom" then
      SceneClip image_path frame duration (Some (zoom_in_fl duration)) [] None
    else if String.eqb effect "pan" then
      SceneClip image_path frame duration (Some (pan_right_fl duration)) [] None
    else clip in
  let clip := add_fade clip (fadein (5 # 10)) in
  let clip := add_fade clip (fadeout (5 # 10)) in
  mret clip.

(** *** [text_to_speech] *)

(** The body of the [try] block. *)
Definition synthesize (text output_path : string) : M bool :=
  call import_pyttsx3;;
  engine ← call pyttsx3_init;
  call (setProperty engine "rate" 150);;
  call (setProperty engine "volume" (9 # 10));;
  call (save_to_file engine text output_path);;
  call (runAndWait engine);;
  mret true.

(** The message printed by the handler that catches [e]. *)
Definition tts_warning (e : exception) : string :=
  match e with
  | ImportError _ => "⚠️  pyttsx3 not installed. Run: pip install pyttsx3"
  | _ => "⚠️  Text-to-speech failed: " +:+ exception_str e
  end.

Definition text_to_speech (text output_path : string) : M bool :=
  try_except
    (synthesize text output_path)
    (fun e =>
       match e with
       | ImportError _ =>
           print "⚠️  pyttsx3 not installed. Run: pip install pyttsx3";;
           mret false
       | _ =>
           print ("⚠️  Text-to-speech failed: " +:+ exception_str e);;
           mret false
       end).

(** *** [generate_video] *)

(** The file [voice_{i}.mp3] in the scratch directory. *)
Definition voice_path (self : generator) (i : nat) : string :=
  path_join (temp_dir self) ("voice_" +:+ pretty i +:+ ".mp3").

(** One turn of the loop over [enumerate(voice_over_texts)]. *)
Definition voice_over_step (self : generator) (item : nat * string)
    (voice_files : list (option string)) : M (list (option string)) :=
  let '(i, voice_text) := item in
  if truthy_str voice_text then
    let voice_path := voice_path self i in
    ok ← text_to_speech voice_text voice_path;
    if ok : bool then
      print ("  ✅ Voice over " +:+ pretty (i + 1)%nat +:+ " generated");;
      mret (voice_files ++ [Some voice_path])
    else mret (voice_files ++ [None])
  else mret (voice_files ++ [None]).

Definition generate_voice_overs (self : generator)
    (voice_over_texts : option (list string)) : M (list (option string)) :=
  if truthy_opt_list voice_over_texts then
    print "🎤 Generating voice overs...";;
    for_each (enumerate (default [] voice_over_texts)) (voice_over_step self) []
  else mret [].

(** [text_overlays[i] if text_overlays and i < len(text_overlays) else None] *)
Definition overlay_for (text_overlays : option (list string)) (i : nat)
    : result (option string) :=
  if truthy_opt_list text_overlays
     && (i <? length (default [] text_overlays))%nat
  then match py_index (default [] text_overlays) i with
       | Return overlay => Return (Some overlay)
       | Raise e => Raise e
       end
  else Return None.

(** [visual_effects[i] if i < len(visual_effects) else "none"] *)
Definition visual_effect_for (visual_effects : list string) (i : nat)
    : result string :=
  if (i <? length visual_effects)%nat then py_index visual_effects i
  else Return "none".

(** [camera_effects[i] if i < len(camera_effects) else "zoom"] *)
Definition camera_effect_for (camera_effects : list string) (i : nat)
    : result string :=
  if (i <? length camera_effects)%nat then py_index camera_effects i
  else Return "zoom".

(** The value [voice_files[i]] when the test
    [voice_files and i < len(voice_files) and voice_files[i]] holds. *)
Definition voice_file_for (voice_files : list (option string)) (i : nat)
    : result (option string) :=
  if truthy_list voice_files && (i <? length voice_files)%nat
  then match py_index voice_files i with
       | Return file => Return (if truthy_opt_str file then file else None)
       | Raise e => Raise e
       end
  else Return None.

(** One turn of the loop over [enumerate(prompts)]. *)
Definition image_step (self : generator) (n : nat)
    (text_overlays : option (list string)) (visual_effects : list string)
    (item : nat * string) (image_paths : list string) : M (list string) :=
  let '(i, prompt) := item in
  overlay ← lift (overlay_for text_overlays i);
  effect ← lift (visual_effect_for visual_effects i);
  print ("  Scene " +:+ pretty (i + 1)%nat +:+ "/" +:+ pretty n +:+ ": "
         +:+ prompt);;
  img_path ← generate_image_from_prompt self prompt i overlay effect;
  mret (image_paths ++ [img_path]).

Definition generate_images (self : generator) (prompts : list string)
    (text_overlays : option (list string)) (visual_effects : list string)
    : M (list string) :=
  for_each (enumerate prompts)
    (image_step self (length prompts) text_overlays visual_effects) [].

(** The [try]/[except] that sets the narration of scene [i] on its clip,
    run when the test on [voice_files] holds. *)
Definition add_voice_over (i : nat) (clip : scene_clip Pixel AudioClip)
    (voice_file : option string) : M (scene_clip Pixel AudioClip) :=
  match voice_file with
  | Some file =>
      try_except
        (voice_audio ← call (AudioFileClip file);
         mret (set_audio clip voice_audio))
        (fun e =>
           print ("  ⚠️  Could not add voice to scene "
                  +:+ pretty (i + 1)%nat +:+ ": " +:+ exception_str e);;
           mret clip)
  | None => mret clip
  end.

(** One turn of the loop over [enumerate(image_paths)]. *)
Definition clip_step (scene_duration : Q) (camera_effects : list string)
    (voice_files : list (option string)) (item : nat * string)
    (clips : list (scene_clip Pixel AudioClip))
    : M (list (scene_clip Pixel AudioClip)) :=
  let '(i, img_path) := item in
  cam_effect ← lift (camera_effect_for camera_effects i);
  clip ← create_scene img_path scene_duration cam_effect;
  voice_file ← lift (voice_file_for voice_files i);
  clip ← add_voice_over i clip voice_file;
  mret (clips ++ [clip]).

Definition create_clips (scene_duration : Q) (camera_effects : list string)
    (voice_files : list (option string)) (image_paths : list string)
    : M (list (scene_clip Pixel AudioClip)) :=
  for_each (enumerate image_paths)
    (clip_step scene_duration camera_effects voice_files) [].

(** Loop the music when it is shorter than the timeline, trim it
    otherwise, then scale its volume. *)
Definition fit_music (music : AudioClip) (timeline_duration music_volume : Q)
    : M AudioClip :=
  music ← (if Qltb (audio_duration music) timeline_duration
           then call (audio_loop music timeline_duration)
           else call (audio_subclip music 0 timeline_duration));
  call (volumex music music_volume).

(** Mix the music with the narration when the timeline has audio, set it
    as the only track otherwise. *)
Definition mix_music (final_clip : Video) (music : AudioClip) : M Video :=
  match video_audio final_clip with
  | Some audio =>
      final_audio ← call (CompositeAudioClip [audio; music]);
      mret (video_set_audio final_clip final_audio)
  | None => mret (video_set_audio final_clip music)
  end.

(** The body of the [try] block of the music step. *)
Definition attach_music (final_clip : Video) (file : string)
    (music_volume : Q) : M Video :=
  music ← call (AudioFileClip file);
  music ← fit_music music (video_duration final_clip) music_volume;
  mix_music final_clip music.

Definition music_warning (e : exception) : string :=
  "⚠️  Could not add background music: " +:+ exception_str e.

(** The block [if background_music and os.path.exists(background_music):]
    with its [try]/[except]; the value is [final_clip] after the block. *)
Definition add_background_music (final_clip : Video)
    (background_music : option string) (music_volume : Q) : M Video :=
  let file := default "" background_music in
  present ← (if truthy_opt_str background_music then os_path_exists file
             else mret false);
  if present : bool then
    print "🎵 Adding background music...";;
    try_except
      (attach_music final_clip file music_volume)
      (fun e => print (music_warning e);; mret final_clip)
  else mret final_clip.

(** Everything up to the export: the clip that [write_videofile] is given. *)
Definition assemble (self : generator) (prompts : list string)
    (scene_duration : Q) (text_overlays camera_effects visual_effects : option (list string))
    (background_music : option string) (voice_over_texts : option (list string))
    (music_volume : Q) : M Video :=
  print "🎬 Starting video generation...";;
  let camera_effects := default (replicate (length prompts) "zoom") camera_effects in
  let visual_effects := default (replicate (length prompts) "gradient") visual_effects in
  voice_files ← generate_voice_overs self voice_over_texts;
  print ("📸 Generating " +:+ pretty (length prompts) +:+ " scenes...");;
  image_paths ← generate_images self prompts text_overlays visual_effects;
  print "🎞️  Creating video clips with effects...";;
  clips ← create_clips scene_duration camera_effects voice_files image_paths;
  print "✂️  Combining clips...";;
  final_clip ← call (concatenate_videoclips clips "compose");
  add_background_music final_clip background_music music_volume.

Definition generate_video (self : generator) (prompts : list string)
    (scene_duration : Q) (text_overlays camera_effects visual_effects : option (list string))
    (background_music : option string) (voice_over_texts : option (list string))
    (music_volume : Q) (output_filename : string) : M string :=
  final_clip ← assemble self prompts scene_duration text_overlays camera_effects
                 visual_effects background_music voice_over_texts music_volume;
  let output_path := path_join (output_dir self) output_filename in
  print ("💾 Exporting video to " +:+ output_path +:+ "...");;
  call (write_videofile final_clip output_path 24 "libx264" "aac");;
  print ("✅ Video generated successfully: " +:+ output_path);;
  mret output_path.

(** *** Assumptions on the libraries that some statements make *)

(** The rendering side works: the built-in font loads, images are saved
    and opened, clips that are at least one are concatenated, and the
    file is written.  Nothing is assumed of the speech engine or of the
    audio calls. *)
Definition rendering_works : Prop :=
  (forall w, exists font w', ImageFont_load_default w = (Return font, w')) /\
  (forall img path w, exists w', Image_save img path w = (Return tt, w')) /\
  (forall path w, exists frame w', ImageClip path w = (Return frame, w')) /\
  (forall clips method w, clips <> [] ->
     exists video w', concatenate_videoclips clips method w = (Return video, w')) /\
  (forall video path fps codec audio_codec w,
     exists w', write_videofile video path fps codec audio_codec w = (Return tt, w')).

(** The library call that [fit_music] makes to bring the music to the
    timeline's duration: the loop when the music is shorter, the trim
    otherwise. *)
Definition shaping_call (music : AudioClip) (timeline_duration : Q)
    : World -> result AudioClip * World :=
  if Qltb (audio_duration music) timeline_duration
  then audio_loop music timeline_duration
  else audio_subclip music 0 timeline_duration.

(** What moviepy promises of the durations: a looped clip lasts the
    duration asked for, a subclip lasts from its start to its end, and
    scaling the volume leaves the duration as it is. *)
Definition durations_as_documented : Prop :=
  (forall music d w looped w',
     audio_loop music d w = (Return looped, w') ->
     (audio_duration looped == d)%Q) /\
  (forall music t_start t_end w cut w',
     audio_subclip music t_start t_end w = (Return cut, w') ->
     (audio_duration cut == t_end - t_start)%Q) /\
  (forall music factor w scaled w',
     volumex music factor w = (Return scaled, w') ->
     (audio_duration scaled == audio_duration music)%Q).

End Program.

(** ** A small concrete world

    A reference instance of the libraries, used to run the program on
    concrete inputs: rasters and fonts carry no data, a file exists once it
    has been saved, the speech engine is installed or not, refuses the text
    ["<fail>"], and an audio file named ["corrupt.mp3"] cannot be decoded. *)

Module Demo.

Record demo_world := DemoWorld { installed : bool; files : list string }.

Record demo_audio := DemoAudio { audio_name : string; audio_length : Q; audio_gain : Q }.

Record demo_video := DemoVideo {
  video_scenes : list (scene_clip nat demo_audio);
  video_track : option demo_audio;
}.

Definition has_file (path : string) (w : demo_world) : bool :=
  existsb (String.eqb path) (files w).

Definition add_file (path : string) (w : demo_world) : demo_world :=
  DemoWorld (installed w) (files w ++ [path]).

Definition open_audio (path : string) (w : demo_world)
    : result demo_audio * demo_world :=
  if has_file path w then
    if String.eqb path "corrupt.mp3"
    then (Raise (OtherError "could not decode corrupt.mp3"), w)
    else (Return (DemoAudio path (if String.eqb path "short.mp3" then 3 else 60) 1), w)
  else (Raise (OtherError ("no such file: " +:+ path)), w).

Definition loop_audio (a : demo_audio) (d : Q) (w : demo_world)
    : result demo_audio * demo_world :=
  if Qle_bool (audio_length a) 0
  then (Raise (OtherError "float division by zero"), w)
  else (Return (DemoAudio (audio_name a) d (audio_gain a)), w).

Definition sum_durations (clips : list (scene_clip nat demo_audio)) : Q :=
  foldr (fun c acc => (clip_duration c + acc)%Q) 0%Q clips.

Definition concatenate (clips : list (scene_clip nat demo_audio)) (method : string)
    (w : demo_world) : result demo_video * demo_world :=
  match clips with
  | [] => (Raise (OtherError "max() arg is an empty sequence"), w)
  | _ =>
      let tracks := omap clip_audio clips in
      let track :=
        match tracks with
        | [] => None
        | a :: _ => Some (DemoAudio "narration" (sum_durations clips) 1)
        end in
      (Return (DemoVideo clips track), w)
  end.

#[export] Instance externals : Externals := {|
  World := demo_world;
  Pixel := nat;
  Img := unit;
  Font := unit;
  Engine := unit;
  AudioClip := demo_audio;
  Video := demo_video;
  hash := fun s => Z.of_nat (String.length s) * 7919 - 1000003;
  path_exists := has_file;
  Image_new := fun _ _ _ => tt;
  Image_size := fun _ => (1920, 1080);
  GaussianBlur := fun _ _ => tt;
  Image_blend := fun _ _ _ => tt;
  Image_composite := fun _ _ _ => tt;
  draw_line := fun _ _ _ _ => tt;
  draw_rectangle := fun _ _ _ => tt;
  draw_textbbox := fun _ _ text _ => (0, 0, 30 * Z.of_nat (String.length text), 60);
  draw_text := fun _ _ _ _ _ => tt;
  ImageFont_truetype := fun name _ w =>
    if has_file name w then (Return tt, w)
    else (Raise (OtherError "cannot open resource"), w);
  ImageFont_load_default := fun w => (Return tt, w);
  Image_save := fun _ path w => (Return tt, add_file path w);
  Image_resize := fun fr _ _ => fr;
  import_pyttsx3 := fun w =>
    if installed w then (Return tt, w)
    else (Raise (ImportError "No module named 'pyttsx3'"), w);
  pyttsx3_init := fun w => (Return tt, w);
  setProperty := fun _ _ _ w => (Return tt, w);
  save_to_file := fun _ text path w =>
    if String.eqb text "<fail>"
    then (Raise (OtherError "engine stopped"), w)
    else (Return tt, add_file path w);
  runAndWait := fun _ w => (Return tt, w);
  ImageClip := fun path w => (Return [[1; 2]; [3; 4]]%nat, w);
  AudioFileClip := open_audio;
  audio_duration := audio_length;
  audio_loop := loop_audio;
  audio_subclip := fun a t0 t1 w =>
    (Return (DemoAudio (audio_name a) (t1 - t0)%Q (audio_gain a)), w);
  volumex := fun a f w =>
    (Return (DemoAudio (audio_name a) (audio_length a) (audio_gain a * f)%Q), w);
  CompositeAudioClip := fun l w =>
    match l with
    | [] => (Raise (OtherError "no clips"), w)
    | a :: _ => (Return (DemoAudio "mix" (audio_length a) 1), w)
    end;
  concatenate_videoclips := concatenate;
  video_duration := fun v => sum_durations (video_scenes v);
  video_audio := video_track;
  video_set_audio := fun v a => DemoVideo (video_scenes v) (Some a);
  write_videofile := fun _ path _ _ _ w => (Return tt, add_file path w);
|}.

Definition self : generator := Generator "generated_videos" "generated_videos/temp".

(** A world with the speech engine and three audio files. *)
Definition studio : state :=
  State (DemoWorld true ["music.mp3"; "short.mp3"; "corrupt.mp3"]) [].

(** The same world without the speech engine. *)
Definition silent_studio : state :=
  State (DemoWorld false ["music.mp3"; "short.mp3"; "corrupt.mp3"]) [].

End Demo.

(** ** Parts of the drawing helpers, named

    The row colours of [_add_gradient], the rectangles of [_add_vignette]
    and the stamp positions of [_draw_text_with_outline], as the loops of
    these functions compute them. *)

(** [int(c * (1 - progress * 0.5))] with [progress = y / height] *)
Definition gradient_shade (height y c : Z) : Z :=
  Py.int (inject_Z c * (1 - (inject_Z y / inject_Z height) * (5 # 10)))%Q.

(** The colour of the line that [_add_gradient] draws at row [y]. *)
Definition gradient_color (base : Z * Z * Z) (height y : Z) : Z * Z * Z :=
  let '(r, g, b) := base in
  (gradient_shade height y r, gradient_shade height y g,
   gradient_shade height y b).

(** The box [(i, i, width - i, height - i)] that [_add_vignette] fills
    with the value [i]. *)
Definition vignette_rectangle (width height i : Z) : Z * Z * Z * Z :=
  (i, i, width - i, height - i).

(** The top-left corner at which [_draw_text_with_outline] draws a text
    whose bounding box is [bbox], so that it is centred on [position]. *)
Definition text_origin (position : Z * Z) (bbox : Z * Z * Z * Z) : Z * Z :=
  let '(x, y) := position in
  let '(x0, y0, x1, y1) := bbox in
  (x - Py.floordiv (x1 - x0) 2, y - Py.floordiv (y1 - y0) 2).

(** The positions of the outline stamps, in the order of the two nested
    loops over [range(-outline_width, outline_width + 1)]. *)
Definition outline_positions (origin : Z * Z) (outline_width : Z)
    : list (Z * Z) :=
  let offsets := seqZ (- outline_width) (2 * outline_width + 1) in
  adj_x ← offsets;
  (fun adj_y => (origin.1 + adj_x, origin.2 + adj_y)) <$> offsets.

(** ** [cleanup_temp_files]

    The directory listing and the removal of a file are pathlib's; they
    act on the world and may raise. *)

Section Cleanup.
Context `{E : Externals}.
Variable glob : string -> string -> World -> result (list string) * World.
Variable unlink : string -> World -> result unit * World.

(** [for file in ...: file.unlink()] *)
Definition unlink_each (files : list string) : M unit :=
  for_each files (fun file _ => call (unlink file)) tt.

Definition cleanup_temp_files (self : generator) : M unit :=
  files ← call (glob (temp_dir self) "*");
  unlink_each files;;
  print "🧹 Temporary files cleaned up".

End Cleanup.

(** A directory listing and a removal for the concrete world: the files
    under a directory, and the world without a file. *)
Module DemoFiles.

Definition inside (directory path : string) : bool :=
  String.prefix (directory +:+ "/") path.

Definition glob (directory pattern : string) (w : Demo.demo_world)
    : result (list string) * Demo.demo_world :=
  (Return (filter (fun path => inside directory path = true) (Demo.files w)), w).

Definition unlink (path : string) (w : Demo.demo_world)
    : result unit * Demo.demo_world :=
  if Demo.has_file path w
  then (Return tt,
        Demo.DemoWorld (Demo.installed w)
          (filter (fun p => String.eqb p path = false) (Demo.files w)))
  else (Raise (OtherError ("no such file: " +:+ path)), w).

End DemoFiles.

(** * Properties *)

Example zoom_window_mid :
  Camera.zoom_window 7 1080 1920 (7 # 2) = Camera.Window 49 87 981 1745.
Proof. reflexivity. Qed.

Example pan_shift_end : Camera.pan_shift 7 1920 7 = 192.
Proof. reflexivity. Qed.

Example roll_left_one : Camera.roll [1; 2; 3; 4; 5] (-1) = [2; 3; 4; 5; 1].
Proof. reflexivity. Qed.

Example pan_right_small :
  Camera.pan_right 2 [[1; 2; 3; 4; 5; 6; 7; 8; 9; 10; 11; 12; 13; 14; 15; 16; 17; 18; 19; 20]] 1
  = [[2; 3; 4; 5; 6; 7; 8; 9; 10; 11; 12; 13; 14; 15; 16; 17; 18; 19; 20; 1]].
Proof. reflexivity. Qed.

(** ** Rational arithmetic behind the camera transforms *)

Lemma int_floor (x : Q) : (0 <= x)%Q -> Py.int x = Qfloor x.
Proof.
  destruct x as [n d]. unfold Qle, Py.int, Qfloor. simpl. intros H.
  apply Z.quot_div_nonneg; lia.
Qed.

Lemma unit_ratio (d t : Q) :
  (0 < d)%Q -> (0 <= t)%Q -> (t <= d)%Q -> (0 <= t / d)%Q /\ (t / d <= 1)%Q.
Proof.
  intros Hd H0 H1. split.
  - apply Qle_shift_div_l; [done | lra].
  - apply Qle_shift_div_r; [done | lra].
Qed.

Lemma shrink_by_factor (h f : Q) :
  (0 <= h)%Q -> (1 <= f)%Q -> (0 <= h / f)%Q /\ (h / f <= h)%Q.
Proof.
  intros Hh Hf. split.
  - apply Qle_shift_div_l; lra.
  - apply Qle_shift_div_r; [lra | nra].
Qed.

Lemma zoom_factor_range (d t : Q) :
  (0 < d)%Q -> (0 <= t)%Q -> (t <= d)%Q ->
  (1 <= Camera.zoom_factor d t)%Q /\ (Camera.zoom_factor d t <= 12 # 10)%Q.
Proof.
  intros Hd H0 H1. destruct (unit_ratio d t Hd H0 H1) as [Ha Hb].
  unfold Camera.zoom_factor. set (r := (t / d)%Q) in *. split; lra.
Qed.

(** A side of length [n] cut down by a factor of at least one and centred
    stays inside [0, n]. *)
Lemma centred_extent (n : Z) (f : Q) :
  0 <= n -> (1 <= f)%Q ->
  let m := Py.int (inject_Z n / f) in
  let o := Py.floordiv (n - m) 2 in
  0 <= m <= n /\ 0 <= o /\ o + m <= n.
Proof.
  intros Hn Hf m o.
  assert (Hq : (0 <= inject_Z n)%Q) by (change 0%Q with (inject_Z 0); rewrite <- Zle_Qle; done).
  destruct (shrink_by_factor _ _ Hq Hf) as [Hlo Hhi].
  assert (Hm : 0 <= m <= n).
  { subst m. rewrite int_floor by done. split.
    - rewrite <- (Qfloor_Z 0). by apply Qfloor_resp_le.
    - rewrite <- (Qfloor_Z n) at 2. by apply Qfloor_resp_le. }
  split; [done |]. subst o. unfold Py.floordiv.
  split; [apply Z.div_pos; lia |].
  assert ((n - m) / 2 <= n - m) by (apply Z.div_le_upper_bound; lia). lia.
Qed.

Lemma zoom_factor_start (d : Q) : (0 < d)%Q -> (Camera.zoom_factor d 0 == 1)%Q.
Proof. intros Hd. unfold Camera.zoom_factor. field. lra. Qed.

Lemma zoom_factor_end (d : Q) : (0 < d)%Q -> (Camera.zoom_factor d d == 12 # 10)%Q.
Proof. intros Hd. unfold Camera.zoom_factor. field. lra. Qed.

Lemma int_unit_factor (n : Z) (f : Q) :
  0 <= n -> (f == 1)%Q -> Py.int (inject_Z n / f) = n.
Proof.
  intros Hn Hf.
  assert (He : (inject_Z n / f == inject_Z n)%Q) by (rewrite Hf; field).
  rewrite int_floor.
  - by rewrite He, Qfloor_Z.
  - rewrite He. change 0%Q with (inject_Z 0). by rewrite <- Zle_Qle.
Qed.

(** ** The zoom transform *)



(** Inside the bounds a slice is not clamped: it has exactly the length
    asked for. *)
Lemma slice_within {A} (l : list A) (i n : Z) :
  0 <= i -> 0 <= n -> i + n <= Z.of_nat (length l) ->
  Camera.slice l i (i + n) = take (Z.to_nat n) (drop (Z.to_nat i) l) /\
  length (Camera.slice l i (i + n)) = Z.to_nat n.
Proof.
  intros Hi Hn Hfit. unfold Camera.slice, Camera.slice_bound.
  destruct (Z.ltb_spec i 0) as [| _]; [lia |].
  destruct (Z.ltb_spec (i + n) 0) as [| _]; [lia |].
  rewrite !Z.min_l by lia. replace (i + n - i) with n by lia.
  split; [done |]. rewrite length_take, length_drop. lia.
Qed.

(** The crop that [zoom_in] takes from a rectangular frame has exactly
    [new_h] rows of [new_w] pixels: row [i] of the crop is the stretch of
    row [top + i] that starts at column [left]. *)
Lemma zoom_crop_is_exact {Pixel : Type} (duration t : Q)
    (fr : list (list Pixel)) :
  (0 < duration)%Q -> (0 <= t)%Q -> (t <= duration)%Q ->
  Camera.rectangular fr ->
  let h := (Camera.shape fr).1 in
  let w := (Camera.shape fr).2 in
  let win := Camera.zoom_window duration h w t in
  let cropped := Camera.crop fr win in
  Z.of_nat (length cropped) = Camera.new_h win /\
  Forall (fun row => Z.of_nat (length row) = Camera.new_w win) cropped /\
  forall (i : nat) (row : list Pixel),
    cropped !! i = Some row ->
    exists source : list Pixel,
      fr !! (Z.to_nat (Camera.top win) + i)%nat = Some source /\
      row = take (Z.to_nat (Camera.new_w win))
                 (drop (Z.to_nat (Camera.left win)) source).
Proof.
  intros Hd H0 H1 Hrect h w win cropped.
  assert (Hh : 0 <= h) by (subst h; simpl; lia).
  assert (Hw : 0 <= w) by (subst w; simpl; lia).
  assert (Hfr : Z.of_nat (length fr) = h) by done.
  destruct (zoom_factor_range duration t Hd H0 H1) as [Hf _].
  pose proof (centred_extent h _ Hh Hf) as ((Hnh & _) & Ht & Hth).
  pose proof (centred_extent w _ Hw Hf) as ((Hnw & _) & Hl & Hlw).
  change (0 <= Camera.new_h win) in Hnh. change (0 <= Camera.top win) in Ht.
  change (Camera.top win + Camera.new_h win <= h) in Hth.
  change (0 <= Camera.new_w win) in Hnw. change (0 <= Camera.left win) in Hl.
  change (Camera.left win + Camera.new_w win <= w) in Hlw.
  rewrite <- Hfr in Hth.
  destruct (slice_within fr _ _ Ht Hnh Hth) as [Hrows Hlen].
  assert (Hrow : forall (i : nat) (source : list Pixel),
    Camera.slice fr (Camera.top win) (Camera.top win + Camera.new_h win) !! i
    = Some source ->
    fr !! (Z.to_nat (Camera.top win) + i)%nat = Some source /\
    Z.of_nat (length source) = w).
  { intros i source Hi. rewrite Hrows in Hi.
    apply lookup_take_Some in Hi as [Hi _]. rewrite lookup_drop in Hi.
    split; [done |].
    by eapply (Forall_lookup_1 _ fr _ source) in Hrect. }
  subst cropped. unfold Camera.crop. split_and!.
  - rewrite length_fmap, Hlen. lia.
  - apply Forall_fmap, Forall_lookup. intros i source Hi.
    destruct (Hrow i source Hi) as [_ Hsrc].
    change (Z.of_nat (length (Camera.slice source (Camera.left win)
                                (Camera.left win + Camera.new_w win)))
            = Camera.new_w win).
    destruct (slice_within source (Camera.left win) (Camera.new_w win))
      as [_ Hcols]; lia.
  - intros i row Hi. rewrite list_lookup_fmap in Hi.
    destruct (Camera.slice fr _ _ !! i) as [source |] eqn:Hsrc; [| done].
    simpl in Hi. inversion Hi; subst.
    destruct (Hrow i source Hsrc) as [Hat Hsw]. exists source.
    split; [done |].
    destruct (slice_within source (Camera.left win) (Camera.new_w win))
      as [Hcols _]; [lia | lia | lia | done].
Qed.

(** ** The pan transform *)

Lemma roll_left {A} (l : list A) (s : Z) :
  0 < s < Z.of_nat (length l) ->
  Camera.roll l (- s) = drop (Z.to_nat s) l ++ take (Z.to_nat s) l.
Proof.
  intros Hs. unfold Camera.roll, Py.mod_.
  set (n := Z.of_nat (length l)) in *.
  destruct (Z.eqb_spec n 0) as [|_]; [lia |].
  assert (Hm : (- s) mod n = n - s).
  { symmetry. apply (Z.mod_unique_pos _ _ (-1)); lia. }
  rewrite Hm. destruct (Z.eqb_spec (n - s) 0) as [|_]; [lia |].
  by replace (n - (n - s)) with s by lia.
Qed.

Lemma rotation_perm {A} (l : list A) (k : nat) : drop k l ++ take k l ≡ₚ l.
Proof. rewrite Permutation_app_comm. by rewrite take_drop. Qed.

Lemma rotation_lookup {A} (l : list A) (k j : nat) :
  (k < length l)%nat -> (j < length l)%nat ->
  (drop k l ++ take k l) !! j
  = l !! Z.to_nat ((Z.of_nat j + Z.of_nat k) mod Z.of_nat (length l)).
Proof.
  intros Hk Hj. destruct (decide (j < length l - k)%nat) as [Hlt | Hge].
  - rewrite lookup_app_l by (rewrite length_drop; lia).
    rewrite lookup_drop. f_equal.
    rewrite Z.mod_small by lia. lia.
  - rewrite lookup_app_r by (rewrite length_drop; lia).
    rewrite length_drop, lookup_take_lt by lia. f_equal.
    rewrite <- (Z.mod_unique_pos _ _ 1 (Z.of_nat j + Z.of_nat k - Z.of_nat (length l)));
      lia.
Qed.

Lemma pan_shift_start (d : Q) (w : Z) : Camera.pan_shift d w 0 = 0.
Proof.
  unfold Camera.pan_shift, Py.int. destruct d as [[| p | p] q]; reflexivity.
Qed.

Lemma pan_offset_range (d t : Q) (w : Z) :
  (0 < d)%Q -> (0 <= t)%Q -> (t <= d)%Q -> 0 <= w ->
  (0 <= (t / d) * inject_Z w * (1 # 10))%Q /\
  ((t / d) * inject_Z w * (1 # 10) <= inject_Z w * (1 # 10))%Q.
Proof.
  intros Hd H0 H1 Hw. destruct (unit_ratio d t Hd H0 H1) as [Ha Hb].
  assert (Hq : (0 <= inject_Z w)%Q)
    by (change 0%Q with (inject_Z 0); rewrite <- Zle_Qle; done).
  set (r := (t / d)%Q) in *. set (x := inject_Z w) in *. split; nra.
Qed.

Lemma pan_offset_mono (d t t' : Q) (w : Z) :
  (0 < d)%Q -> (t <= t')%Q -> 0 <= w ->
  ((t / d) * inject_Z w * (1 # 10) <= (t' / d) * inject_Z w * (1 # 10))%Q.
Proof.
  intros Hd Ht Hw.
  assert (Hq : (0 <= inject_Z w)%Q)
    by (change 0%Q with (inject_Z 0); rewrite <- Zle_Qle; done).
  assert (Hr : (t / d <= t' / d)%Q).
  { unfold Qdiv. apply Qmult_le_compat_r; [done |].
    apply Qinv_le_0_compat. lra. }
  set (r := (t / d)%Q) in *. set (r' := (t' / d)%Q) in *.
  set (x := inject_Z w) in *. nra.
Qed.

Lemma pan_shift_range (d t : Q) (w : Z) :
  (0 < d)%Q -> (0 <= t)%Q -> (t <= d)%Q -> 0 <= w ->
  0 <= Camera.pan_shift d w t /\ 10 * Camera.pan_shift d w t <= w.
Proof.
  intros Hd H0 H1 Hw.
  destruct (pan_offset_range d t w Hd H0 H1 Hw) as [Hlo Hhi].
  unfold Camera.pan_shift. rewrite int_floor by done. split.
  - rewrite <- (Qfloor_Z 0). by apply Qfloor_resp_le.
  - apply Qfloor_resp_le in Hhi.
    assert (He : Qfloor (inject_Z w * (1 # 10)) = w / 10).
    { unfold Qfloor, inject_Z, Qmult. simpl. by rewrite Z.mul_1_r. }
    rewrite He in Hhi. pose proof (Z.mul_div_le w 10). lia.
Qed.

Lemma pan_right_eq {Pixel : Type} (d t : Q) (fr : list (list Pixel)) :
  Camera.pan_right d fr t
  = if 0 <? Camera.pan_shift d (Camera.shape fr).2 t
    then Camera.roll_columns fr (- Camera.pan_shift d (Camera.shape fr).2 t)
    else fr.
Proof. reflexivity. Qed.



Example demo_run :
  (generate_video Demo.self ["A"; "B"] 5 None None None None None (3 # 10)
     "out.mp4" Demo.studio).1
  = Return "generated_videos/out.mp4".
Proof. vm_compute. reflexivity. Qed.

(** ** Running the monad *)

Section Runs.
Context `{E : Externals}.

Lemma bind_run {A B} (m : M A) (f : A -> M B) (s : state) :
  (m ≫= f) s
  = match m s with
    | (Return a, s') => f a s'
    | (Raise e, s') => (Raise e, s')
    end.
Proof. reflexivity. Qed.

Lemma bind_returns {A B} (m : M A) (f : A -> M B) (s s' : state) (b : B) :
  (m ≫= f) s = (Return b, s') ->
  exists a s1, m s = (Return a, s1) /\ f a s1 = (Return b, s').
Proof.
  rewrite bind_run. destruct (m s) as [[a | e] s1]; [eauto | discriminate].
Qed.

Lemma bind_step {A B} (m : M A) (f : A -> M B) (s s1 : state) (a : A) :
  m s = (Return a, s1) -> (m ≫= f) s = f a s1.
Proof. intros H. by rewrite bind_run, H. Qed.

Lemma bind_raises {A B} (m : M A) (f : A -> M B) (s s1 : state) (e : exception) :
  m s = (Raise e, s1) -> (m ≫= f) s = (Raise e, s1).
Proof. intros H. by rewrite bind_run, H. Qed.

Lemma try_except_run {A} (body : M A) (handler : exception -> M A) (s : state) :
  try_except body handler s
  = match body s with
    | (Return a, s') => (Return a, s')
    | (Raise e, s') => handler e s'
    end.
Proof. reflexivity. Qed.

Lemma call_run {A} (op : World -> result A * World) (s : state) :
  call op s = ((op (world s)).1, State (op (world s)).2 (stdout s)).
Proof. unfold call. by destruct (op (world s)). Qed.

Lemma synthesize_value (text output_path : string) (s s' : state) (b : bool) :
  synthesize text output_path s = (Return b, s') -> b = true.
Proof.
  unfold synthesize. intros H.
  repeat (apply bind_returns in H as (? & ? & _ & H)).
  by inversion H.
Qed.

Lemma handler_run (e : exception) (s : state) :
  match e with
  | ImportError _ =>
      print "⚠️  pyttsx3 not installed. Run: pip install pyttsx3";;
      mret false
  | _ =>
      print ("⚠️  Text-to-speech failed: " +:+ exception_str e);;
      mret false
  end s
  = (Return false, State (world s) (stdout s ++ [tts_warning e])).
Proof. by destruct e. Qed.

End Runs.

(** ** Narration *)

(** C7: [text_to_speech] returns a boolean on every run.  When the body of
    its [try] block runs to the end the result is [True]; when any step
    of it raises, the import of the engine included, the exception is
    caught, a warning is printed and the result is [False]. *)
Theorem text_to_speech_never_raises `{E : Externals}
    (text output_path : string) (s : state) :
  (exists (b : bool) (s' : state),
     text_to_speech text output_path s = (Return b, s')) /\
  (forall s' : state,
     synthesize text output_path s = (Return true, s') ->
     text_to_speech text output_path s = (Return true, s')) /\
  (forall (e : exception) (s' : state),
     synthesize text output_path s = (Raise e, s') ->
     text_to_speech text output_path s
     = (Return false, State (world s') (stdout s' ++ [tts_warning e]))) /\
  (forall (e : exception) (w : World),
     import_pyttsx3 (world s) = (Raise e, w) ->
     text_to_speech text output_path s
     = (Return false, State w (stdout s ++ [tts_warning e]))) /\
  (forall s' : state,
     text_to_speech text output_path s = (Return true, s') <->
     synthesize text output_path s = (Return true, s')).
Proof.
  assert (Hraise : forall e s',
    synthesize text output_path s = (Raise e, s') ->
    text_to_speech text output_path s
    = (Return false, State (world s') (stdout s' ++ [tts_warning e]))).
  { intros e s' H. unfold text_to_speech. rewrite try_except_run, H.
    apply handler_run. }
  assert (Hret : forall s',
    synthesize text output_path s = (Return true, s') ->
    text_to_speech text output_path s = (Return true, s')).
  { intros s' H. unfold text_to_speech. by rewrite try_except_run, H. }
  split_and!.
  - destruct (synthesize text output_path s) as [[b | e] s'] eqn:H.
    + pose proof (synthesize_value _ _ _ _ _ H) as ->. eauto.
    + eauto.
  - done.
  - done.
  - intros e w H. apply (Hraise e (State w (stdout s))). unfold synthesize.
    erewrite bind_raises; [done |]. by rewrite call_run, H.
  - intros s'. split; [| apply Hret].
    destruct (synthesize text output_path s) as [[b | e] s1] eqn:H.
    + pose proof (synthesize_value _ _ _ _ _ H) as ->.
      rewrite (Hret s1 eq_refl). congruence.
    + rewrite (Hraise e s1 eq_refl). discriminate.
Qed.

(** ** Scene images *)

(** C2: the base colour is a function of the prompt's hash alone, so the
    same prompt gives the same triple; the channels are the residues of
    1, 2 and 3 times the hash modulo 200, plus 50, and each lies in
    [[50, 249]]. *)
Theorem base_color_deterministic_in_range `{E : Externals} (prompt : string) :
  base_color prompt
  = ((hash prompt * 1) mod 200 + 50,
     (hash prompt * 2) mod 200 + 50,
     (hash prompt * 3) mod 200 + 50) /\
  (50 <= (base_color prompt).1.1 <= 249 /\
   50 <= (base_color prompt).1.2 <= 249 /\
   50 <= (base_color prompt).2 <= 249) /\
  (forall prompt' : string,
     prompt' = prompt -> base_color prompt' = base_color prompt) /\
  (forall prompt' : string,
     hash prompt' = hash prompt -> base_color prompt' = base_color prompt).
Proof.
  unfold base_color, Py.mod_. simpl. rewrite Z.mul_1_r.
  pose proof (Z.mod_pos_bound (hash prompt) 200).
  pose proof (Z.mod_pos_bound (hash prompt * 2) 200).
  pose proof (Z.mod_pos_bound (hash prompt * 3) 200).
  split_and!; try lia; try done.
  - by intros ? ->.
  - by intros ? ->.
Qed.

Example base_color_demo :
  @base_color Demo.externals "A serene mountain landscape" = (60, 70, 80).
Proof. reflexivity. Qed.

Lemma apply_visual_effect_other `{E : Externals} (visual_effect : string)
    (img : Img) (base : Z * Z * Z) :
  visual_effect <> "blur" -> visual_effect <> "gradient" ->
  visual_effect <> "vignette" ->
  apply_visual_effect visual_effect img base = img.
Proof.
  intros Hb Hg Hv. unfold apply_visual_effect.
  apply String.eqb_neq in Hb, Hg, Hv. by rewrite Hb, Hg, Hv.
Qed.

(** C3: a visual-effect tag outside ["none"], ["blur"], ["gradient"] and
    ["vignette"] leaves the base-colour image as it is in the effect
    step, as ["none"] does, and the whole of [generate_image_from_prompt]
    then runs as it does for ["none"]: the same result, or the same
    exception, and the same final state. *)
Theorem unknown_visual_effect_is_none `{E : Externals} (self : generator)
    (prompt : string) (index : nat) (text_overlay : option string)
    (visual_effect : string) :
  visual_effect ∉ ["none"; "blur"; "gradient"; "vignette"] ->
  (forall (img : Img) (base : Z * Z * Z),
     apply_visual_effect visual_effect img base = img /\
     apply_visual_effect "none" img base = img) /\
  (forall s : state,
     generate_image_from_prompt self prompt index text_overlay visual_effect s
     = generate_image_from_prompt self prompt index text_overlay "none" s).
Proof.
  intros Hout.
  assert (Hne : visual_effect <> "blur" /\ visual_effect <> "gradient"
                /\ visual_effect <> "vignette").
  { rewrite !not_elem_of_cons in Hout. tauto. }
  destruct Hne as (Hb & Hg & Hv).
  split.
  - intros img base. split; [by apply apply_visual_effect_other | done].
  - intros s. unfold generate_image_from_prompt.
    by rewrite (apply_visual_effect_other visual_effect) by done.
Qed.

Lemma unknown_visual_effect_is_none_witness :
  ("sepia" ∉ ["none"; "blur"; "gradient"; "vignette"]) /\
  (generate_image_from_prompt Demo.self "A" 0 None "sepia" Demo.studio
   = generate_image_from_prompt Demo.self "A" 0 None "none" Demo.studio).
Proof.
  assert (H : "sepia" ∉ ["none"; "blur"; "gradient"; "vignette"]).
  { rewrite !not_elem_of_cons. split_and!; try discriminate. apply not_elem_of_nil. }
  split; [done |].
  apply (unknown_visual_effect_is_none Demo.self "A" 0 None "sepia" H).
Defined.

(** ** Parallel lists *)

Lemma py_index_lookup {A} (l : list A) (i : nat) (x : A) :
  l !! i = Some x -> py_index l i = Return x.
Proof. unfold py_index. by intros ->. Qed.

Lemma overlay_for_eq (text_overlays : option (list string)) (i : nat) :
  overlay_for text_overlays i = Return (text_overlays ≫= (.!! i)).
Proof.
  unfold overlay_for. destruct text_overlays as [[| x l] |]; [done | | done].
  change (default [] (Some (x :: l))) with (x :: l).
  change (truthy_opt_list (Some (x :: l))) with true.
  change (Some (x :: l) ≫= (.!! i)) with ((x :: l) !! i).
  rewrite andb_true_l.
  destruct (Nat.ltb_spec i (length (x :: l))) as [Hlt | Hge].
  - destruct (lookup_lt_is_Some_2 (x :: l) i Hlt) as [y Hy].
    by rewrite (py_index_lookup _ _ _ Hy), Hy.
  - by rewrite (lookup_ge_None_2 (x :: l) i Hge).
Qed.

Lemma effect_for_eq (fallback : string) (effects : list string) (i : nat) :
  (if (i <? length effects)%nat then py_index effects i else Return fallback)
  = Return (default fallback (effects !! i)).
Proof.
  destruct (Nat.ltb_spec i (length effects)) as [Hlt | Hge].
  - destruct (lookup_lt_is_Some_2 effects i Hlt) as [y Hy].
    by rewrite (py_index_lookup _ _ _ Hy), Hy.
  - by rewrite (lookup_ge_None_2 effects i Hge).
Qed.

Lemma lift_run `{E : Externals} {A B} (r : result A) (a : A) (f : A -> M B)
    (s : state) :
  r = Return a -> (lift r ≫= f) s = f a s.
Proof. by intros ->. Qed.

(** C6: with lists of any length, the three per-scene selections return
    without raising.  At an index inside the list they give the entry of
    the list; at an index at or beyond its length they give the default:
    no overlay, visual effect ["none"], camera effect ["zoom"].  The
    turns of the two loops pass exactly these values on to
    [generate_image_from_prompt] and [create_scene]. *)
Theorem short_lists_fall_back `{E : Externals} (self : generator)
    (text_overlays visual_effects camera_effects : list string) (i : nat) :
  (forall overlay : string,
     text_overlays !! i = Some overlay ->
     overlay_for (Some text_overlays) i = Return (Some overlay)) /\
  ((length text_overlays <= i)%nat ->
     overlay_for (Some text_overlays) i = Return None) /\
  (forall effect : string,
     visual_effects !! i = Some effect ->
     visual_effect_for visual_effects i = Return effect) /\
  ((length visual_effects <= i)%nat ->
     visual_effect_for visual_effects i = Return "none") /\
  (forall effect : string,
     camera_effects !! i = Some effect ->
     camera_effect_for camera_effects i = Return effect) /\
  ((length camera_effects <= i)%nat ->
     camera_effect_for camera_effects i = Return "zoom") /\
  (forall (n : nat) (prompt : string) (image_paths : list string) (s : state),
     image_step self n (Some text_overlays) visual_effects (i, prompt)
       image_paths s
     = (print ("  Scene " +:+ pretty (i + 1)%nat +:+ "/" +:+ pretty n +:+ ": "
               +:+ prompt);;
        img_path ← generate_image_from_prompt self prompt i
                     (text_overlays !! i)
                     (default "none" (visual_effects !! i));
        mret (image_paths ++ [img_path])) s) /\
  (forall (scene_duration : Q) (img_path : string)
          (voice_files : list (option string))
          (clips : list (scene_clip Pixel AudioClip)),
     forall s : state,
       clip_step scene_duration camera_effects voice_files (i, img_path) clips s
       = (clip ← create_scene img_path scene_duration
                   (default "zoom" (camera_effects !! i));
          voice_file ← lift (voice_file_for voice_files i);
          clip ← add_voice_over i clip voice_file;
          mret (clips ++ [clip])) s).
Proof.
  split_and!.
  - intros overlay H. by rewrite overlay_for_eq; simpl; rewrite H.
  - intros H. rewrite overlay_for_eq. simpl. by rewrite lookup_ge_None_2.
  - intros effect H. unfold visual_effect_for. by rewrite effect_for_eq, H.
  - intros H. unfold visual_effect_for.
    by rewrite effect_for_eq, lookup_ge_None_2.
  - intros effect H. unfold camera_effect_for. by rewrite effect_for_eq, H.
  - intros H. unfold camera_effect_for.
    by rewrite effect_for_eq, lookup_ge_None_2.
  - intros n prompt image_paths s. unfold image_step.
    rewrite (lift_run _ _ _ _ (overlay_for_eq _ _)).
    unfold visual_effect_for.
    by rewrite (lift_run _ _ _ _ (effect_for_eq _ _ _)).
  - intros scene_duration img_path voice_files clips s.
    unfold clip_step, camera_effect_for.
    by rewrite (lift_run _ _ _ _ (effect_for_eq _ _ _)).
Qed.

(** ** Loops that append one entry per item *)

Section Loops.
Context `{E : Externals}.

(** A loop whose turns may raise: if it returns, it has appended one entry
    per item, in order. *)
Lemma for_each_appends {A C} (P : nat -> A -> C -> Prop)
    (step : nat * A -> list C -> M (list C)) :
  (forall i x acc s acc' s',
     step (i, x) acc s = (Return acc', s') ->
     exists y, acc' = acc ++ [y] /\ P i x y) ->
  forall l k acc s res s',
    for_each (enumerate_from k l) step acc s = (Return res, s') ->
    exists ys, res = acc ++ ys /\ length ys = length l /\
      forall j x, l !! j = Some x -> exists y, ys !! j = Some y /\ P (k + j)%nat x y.
Proof.
  intros Hstep l. induction l as [| x l IH]; intros k acc s res s' Hrun.
  - simpl in Hrun. inversion Hrun; subst. exists [].
    rewrite app_nil_r. split_and!; [done | done |]. intros j y Hj. done.
  - simpl in Hrun. apply bind_returns in Hrun as (acc1 & s1 & H1 & Hrest).
    apply Hstep in H1 as (y & -> & Hy).
    apply IH in Hrest as (ys & -> & Hlen & Hall).
    exists (y :: ys). rewrite <- app_assoc. split_and!; [done | simpl; lia |].
    intros [| j] z Hz; simpl in Hz.
    + inversion Hz; subst. exists y. rewrite Nat.add_0_r. done.
    + destruct (Hall j z Hz) as (y' & Hy' & HP). exists y'.
      split; [done |]. by replace (k + S j)%nat with (S k + j)%nat by lia.
Qed.

(** A loop whose turns always return does so too. *)
Lemma for_each_appends_total {A C} (P : nat -> A -> C -> Prop)
    (step : nat * A -> list C -> M (list C)) (l : list A) :
  forall k,
  (forall j x acc s, l !! j = Some x ->
     exists y s', step ((k + j)%nat, x) acc s = (Return (acc ++ [y]), s')
                  /\ P (k + j)%nat x y) ->
  forall acc s,
    exists ys s',
      for_each (enumerate_from k l) step acc s = (Return (acc ++ ys), s') /\
      length ys = length l /\
      forall j x, l !! j = Some x -> exists y, ys !! j = Some y /\ P (k + j)%nat x y.
Proof.
  induction l as [| x l IH]; intros k Hstep acc s.
  - exists [], s. rewrite app_nil_r. split_and!; [done | done |].
    intros j y Hj. done.
  - destruct (Hstep 0%nat x acc s eq_refl) as (y & s1 & H1 & Hy).
    rewrite Nat.add_0_r in H1, Hy.
    destruct (IH (S k)) with (acc := acc ++ [y]) (s := s1)
      as (ys & s' & Hrun & Hlen & Hall).
    { intros j z acc' s2 Hj.
      replace (S k + j)%nat with (k + S j)%nat by lia. by apply Hstep. }
    exists (y :: ys), s'. split_and!.
    + simpl. rewrite (bind_step _ _ _ _ _ H1), Hrun.
      by rewrite <- app_assoc.
    + simpl. lia.
    + intros [| j] z Hz; simpl in Hz.
      * inversion Hz; subst. exists y. by rewrite Nat.add_0_r.
      * destruct (Hall j z Hz) as (y' & Hy' & HP). exists y'.
        split; [done |]. by replace (k + S j)%nat with (S k + j)%nat by lia.
Qed.

End Loops.

(** ** Narration files and clips *)

Lemma length_append (a b : string) :
  String.length (a +:+ b) = (String.length a + String.length b)%nat.
Proof. induction a as [| x a IH]; simpl; [done | by rewrite IH]. Qed.

Lemma append_cancel_r (a b c : string) : a +:+ c = b +:+ c -> a = b.
Proof.
  revert b. induction a as [| x a IH]; intros [| y b] H.
  - done.
  - apply (f_equal String.length) in H.
    rewrite !length_append in H. simpl in H. lia.
  - apply (f_equal String.length) in H.
    rewrite !length_append in H. simpl in H. lia.
  - change (String x (a +:+ c) = String y (b +:+ c)) in H.
    inversion H; subst. f_equal. by apply IH.
Qed.

Lemma voice_path_inj (self : generator) (i j : nat) :
  voice_path self i = voice_path self j -> i = j.
Proof.
  unfold voice_path, path_join. intros H.
  do 3 apply (inj (String.app _)) in H.
  apply append_cancel_r in H. by apply (inj pretty) in H.
Qed.

Lemma scene_path_inj (self : generator) (i j : nat) :
  scene_path self i = scene_path self j -> i = j.
Proof.
  unfold scene_path, path_join. intros H.
  do 3 apply (inj (String.app _)) in H.
  apply append_cancel_r in H. by apply (inj pretty) in H.
Qed.

Section Narration.
Context `{E : Externals}.

Lemma text_to_speech_returns (text output_path : string) (s : state) :
  exists (ok : bool) (s' : state),
    text_to_speech text output_path s = (Return ok, s').
Proof.
  unfold text_to_speech. rewrite try_except_run.
  destruct (synthesize text output_path s) as [[b | e] s1]; [eauto |].
  rewrite handler_run. eauto.
Qed.

(** What one turn of the narration loop appends for the text at index [i]. *)
Lemma voice_over_step_appends (self : generator) (i : nat) (text : string)
    (voice_files : list (option string)) (s : state) :
  exists (entry : option string) (s' : state),
    voice_over_step self (i, text) voice_files s
    = (Return (voice_files ++ [entry]), s') /\
    (truthy_str text = false -> entry = None) /\
    (truthy_str text = true ->
       exists (ok : bool) (s1 s2 : state),
         text_to_speech text (voice_path self i) s1 = (Return ok, s2) /\
         entry = if ok then Some (voice_path self i) else None).
Proof.
  unfold voice_over_step. destruct (truthy_str text) eqn:Htext.
  - destruct (text_to_speech_returns text (voice_path self i) s)
      as (ok & s1 & Hok).
    rewrite (bind_step _ _ _ _ _ Hok). destruct ok.
    + eexists _, _. split_and!; [reflexivity | done |].
      intros _. by exists true, s, s1.
    + eexists _, _. split_and!; [reflexivity | done |].
      intros _. by exists false, s, s1.
  - eexists _, _. split_and!; [reflexivity | done | done].
Qed.

Lemma create_scene_returns (image_path : string) (duration : Q)
    (effect : string) (s s' : state) (clip : scene_clip Pixel AudioClip) :
  create_scene image_path duration effect s = (Return clip, s') ->
  clip_image_path clip = image_path /\ clip_duration clip = duration /\
  clip_audio clip = None /\
  clip_fades clip = [fadein (5 # 10); fadeout (5 # 10)] /\
  ImageClip image_path (world s) = (Return (clip_frame clip), world s').
Proof.
  unfold create_scene. intros H.
  apply bind_returns in H as (frame & s1 & Hload & H).
  rewrite call_run in Hload.
  destruct (ImageClip image_path (world s)) as [r w] eqn:Hw.
  simpl in Hload. inversion Hload; subst.
  destruct (String.eqb effect "zoom"), (String.eqb effect "pan");
    inversion H; subst; done.
Qed.

(** The clip that [create_scene] returns shows the frames of the camera
    effect it was asked for, made with the scene's own duration. *)
Lemma create_scene_camera (image_path : string) (duration : Q)
    (effect : string) (s s' : state) (clip : scene_clip Pixel AudioClip)
    (t : Q) :
  create_scene image_path duration effect s = (Return clip, s') ->
  get_frame clip t
  = if String.eqb effect "zoom"
    then Camera.zoom_in Image_resize duration (clip_frame clip) t
    else if String.eqb effect "pan"
    then Camera.pan_right duration (clip_frame clip) t
    else clip_frame clip.
Proof.
  unfold create_scene. intros H.
  apply bind_returns in H as (frame & s1 & _ & H).
  destruct (String.eqb effect "zoom"), (String.eqb effect "pan");
    inversion H; subst; done.
Qed.

Lemma voice_file_for_some (voice_files : list (option string)) (i : nat)
    (file : string) :
  voice_file_for voice_files i = Return (Some file) ->
  voice_files !! i = Some (Some file).
Proof.
  unfold voice_file_for, py_index.
  destruct (truthy_list voice_files && (i <? length voice_files)%nat);
    [| discriminate].
  destruct (voice_files !! i) as [[f |] |]; simpl; try discriminate.
  destruct (truthy_str f); congruence.
Qed.

Lemma add_voice_over_audio (i : nat) (clip clip' : scene_clip Pixel AudioClip)
    (voice_file : option string) (s s' : state) :
  add_voice_over i clip voice_file s = (Return clip', s') ->
  clip_image_path clip' = clip_image_path clip /\
  clip_duration clip' = clip_duration clip /\
  clip_fl clip' = clip_fl clip /\
  (clip_audio clip' = clip_audio clip \/
   exists (file : string) (audio : AudioClip) (w : World),
     voice_file = Some file /\
     AudioFileClip file (world s) = (Return audio, w) /\
     clip_audio clip' = Some audio).
Proof.
  unfold add_voice_over. destruct voice_file as [file |].
  - rewrite try_except_run, bind_run, call_run.
    destruct (AudioFileClip file (world s)) as [[audio | e] w] eqn:Hw; simpl.
    + intros H. inversion H; subst. split_and!; try done.
      right. by exists file, audio, w.
    + intros H. inversion H; subst. split_and!; try done. by left.
  - intros H. inversion H; subst. split_and!; try done. by left.
Qed.

(** What one turn of the clip loop appends for the image at index [i]. *)
Lemma clip_step_appends (scene_duration : Q) (camera_effects : list string)
    (voice_files : list (option string)) (i : nat) (img_path : string)
    (clips acc' : list (scene_clip Pixel AudioClip)) (s s' : state) :
  clip_step scene_duration camera_effects voice_files (i, img_path) clips s
  = (Return acc', s') ->
  exists clip : scene_clip Pixel AudioClip,
    acc' = clips ++ [clip] /\
    clip_image_path clip = img_path /\ clip_duration clip = scene_duration /\
    forall audio : AudioClip, clip_audio clip = Some audio ->
      exists (file : string) (w w' : World),
        voice_files !! i = Some (Some file) /\
        AudioFileClip file w = (Return audio, w').
Proof.
  unfold clip_step. intros H.
  apply bind_returns in H as (cam & s1 & _ & H).
  apply bind_returns in H as (clip0 & s2 & Hscene & H).
  apply bind_returns in H as (vfile & s3 & Hvf & H).
  apply bind_returns in H as (clip1 & s4 & Hadd & H).
  inversion H; subst. exists clip1.
  apply create_scene_returns in Hscene as (Hp & Hd & Ha & _).
  apply add_voice_over_audio in Hadd as (Hp1 & Hd1 & _ & Haudio).
  split_and!; [done | congruence | congruence |].
  intros audio Hsome. destruct Haudio as [Hsame | (file & a & w & -> & Hopen & Hset)].
  - congruence.
  - exists file, (world s3), w. split.
    + apply voice_file_for_some. unfold lift in Hvf. by inversion Hvf.
    + congruence.
Qed.

End Narration.

Section Alignment.
Context `{E : Externals}.

Lemma generate_voice_overs_runs (self : generator)
    (voice_over_texts : list string) (s : state) :
  exists (voice_files : list (option string)) (s' : state),
    generate_voice_overs self (Some voice_over_texts) s
    = (Return voice_files, s') /\
    length voice_files = length voice_over_texts /\
    forall (i : nat) (text : string),
      voice_over_texts !! i = Some text ->
      exists entry : option string,
        voice_files !! i = Some entry /\
        (truthy_str text = false -> entry = None) /\
        (truthy_str text = true ->
           exists (ok : bool) (s1 s2 : state),
             text_to_speech text (voice_path self i) s1 = (Return ok, s2) /\
             entry = if ok then Some (voice_path self i) else None).
Proof.
  unfold generate_voice_overs. destruct voice_over_texts as [| t l].
  - exists [], s. split_and!; [done | done |]. intros i text Hi. done.
  - change (truthy_opt_list (Some (t :: l))) with true. cbv iota.
    change (default [] (Some (t :: l))) with (t :: l).
    rewrite bind_run. unfold enumerate.
    destruct (for_each_appends_total
                (fun i text entry =>
                   (truthy_str text = false -> entry = None) /\
                   (truthy_str text = true ->
                      exists (ok : bool) (s1 s2 : state),
                        text_to_speech text (voice_path self i) s1
                        = (Return ok, s2) /\
                        entry = if ok then Some (voice_path self i) else None))
                (voice_over_step self) (t :: l) 0%nat) with
      (acc := @nil (option string))
      (s := State (world s) (stdout s ++ ["🎤 Generating voice overs..."]))
      as (ys & s' & Hrun & Hlen & Hall).
    { intros j x acc s0 _.
      destruct (voice_over_step_appends self (0 + j) x acc s0)
        as (entry & s1 & H1 & H2 & H3).
      by exists entry, s1. }
    exists ys, s'. split_and!; [exact Hrun | done | exact Hall].
Qed.

Lemma create_clips_returns (scene_duration : Q) (camera_effects : list string)
    (voice_files : list (option string)) (image_paths : list string)
    (clips : list (scene_clip Pixel AudioClip)) (s s' : state) :
  create_clips scene_duration camera_effects voice_files image_paths s
  = (Return clips, s') ->
  length clips = length image_paths /\
  forall (i : nat) (img_path : string),
    image_paths !! i = Some img_path ->
    exists clip : scene_clip Pixel AudioClip,
      clips !! i = Some clip /\
      clip_image_path clip = img_path /\
      clip_duration clip = scene_duration /\
      forall audio : AudioClip, clip_audio clip = Some audio ->
        exists (file : string) (w w' : World),
          voice_files !! i = Some (Some file) /\
          AudioFileClip file w = (Return audio, w').
Proof.
  unfold create_clips, enumerate. intros Hrun.
  apply (for_each_appends
           (fun i img_path clip =>
              clip_image_path clip = img_path /\
              clip_duration clip = scene_duration /\
              forall audio : AudioClip, clip_audio clip = Some audio ->
                exists (file : string) (w w' : World),
                  voice_files !! i = Some (Some file) /\
                  AudioFileClip file w = (Return audio, w'))) in Hrun
    as (ys & -> & Hlen & Hall).
  - split; [done |]. intros i img_path Hi.
    destruct (Hall i img_path Hi) as (clip & Hc & HP). by exists clip.
  - intros i x acc s0 acc' s1 Hstep.
    apply clip_step_appends in Hstep as (clip & -> & HP). by exists clip.
Qed.

End Alignment.

(** C10: the narration loop returns one entry per input text, in order:
    [None] for an empty text, and for a text that is not empty the path
    [voice_{i}.mp3] when its synthesis returned [True] and [None] when it
    returned [False].  The paths of distinct scenes differ.  A clip built
    from these entries carries audio only when entry [i] is the path of
    scene [i], the audio is the one opened from that path, and that file
    was synthesised from [voice_over_texts[i]]. *)
Theorem narration_stays_aligned `{E : Externals} (self : generator)
    (voice_over_texts : list string) (s : state) :
  exists (voice_files : list (option string)) (s' : state),
    generate_voice_overs self (Some voice_over_texts) s
    = (Return voice_files, s') /\
    length voice_files = length voice_over_texts /\
    (forall (i : nat) (text : string),
       voice_over_texts !! i = Some text ->
       (truthy_str text = false -> voice_files !! i = Some None) /\
       (truthy_str text = true ->
          exists (ok : bool) (s1 s2 : state),
            text_to_speech text (voice_path self i) s1 = (Return ok, s2) /\
            voice_files !! i
            = Some (if ok then Some (voice_path self i) else None))) /\
    (forall i j : nat, voice_path self i = voice_path self j -> i = j) /\
    (forall (scene_duration : Q) (camera_effects image_paths : list string)
            (clips : list (scene_clip Pixel AudioClip)) (s2 s3 : state),
       create_clips scene_duration camera_effects voice_files image_paths s2
       = (Return clips, s3) ->
       length clips = length image_paths /\
       forall (i : nat) (clip : scene_clip Pixel AudioClip) (audio : AudioClip),
         clips !! i = Some clip -> clip_audio clip = Some audio ->
         exists (text : string) (w w' : World) (s1 s1' : state),
           voice_over_texts !! i = Some text /\
           truthy_str text = true /\
           voice_files !! i = Some (Some (voice_path self i)) /\
           text_to_speech text (voice_path self i) s1 = (Return true, s1') /\
           AudioFileClip (voice_path self i) w = (Return audio, w')).
Proof.
  destruct (generate_voice_overs_runs self voice_over_texts s)
    as (voice_files & s' & Hrun & Hlen & Hall).
  exists voice_files, s'.
  assert (Hentry : forall (i : nat) (text : string),
    voice_over_texts !! i = Some text ->
    (truthy_str text = false -> voice_files !! i = Some None) /\
    (truthy_str text = true ->
       exists (ok : bool) (s1 s2 : state),
         text_to_speech text (voice_path self i) s1 = (Return ok, s2) /\
         voice_files !! i
         = Some (if ok then Some (voice_path self i) else None))).
  { intros i text Hi. destruct (Hall i text Hi) as (entry & He & Hf & Ht).
    split.
    - intros H. by rewrite He, (Hf H).
    - intros H. destruct (Ht H) as (ok & s1 & s2 & Hok & ->).
      by exists ok, s1, s2. }
  split_and!; [done | done | done | apply voice_path_inj |].
  intros scene_duration camera_effects image_paths clips s2 s3 Hclips.
  apply create_clips_returns in Hclips as (Hn & Hclip).
  split; [done |].
  intros i clip audio Hi Haudio.
  assert (Hlt : (i < length image_paths)%nat)
    by (rewrite <- Hn; by apply lookup_lt_Some in Hi).
  destruct (lookup_lt_is_Some_2 image_paths i Hlt) as [img_path Himg].
  destruct (Hclip i img_path Himg) as (clip' & Hi' & _ & _ & Hfrom).
  assert (clip' = clip) as -> by congruence.
  destruct (Hfrom audio Haudio) as (file & w & w' & Hfile & Hopen).
  assert (Hlt' : (i < length voice_over_texts)%nat)
    by (rewrite <- Hlen; by apply lookup_lt_Some in Hfile).
  destruct (lookup_lt_is_Some_2 voice_over_texts i Hlt') as [text Htext].
  destruct (Hentry i text Htext) as [Hf Ht].
  destruct (truthy_str text) eqn:Htruthy.
  - destruct (Ht eq_refl) as (ok & s1 & s1' & Hok & Hvf).
    destruct ok; [| congruence].
    assert (file = voice_path self i) as -> by congruence.
    by exists text, w, w', s1, s1'.
  - rewrite (Hf eq_refl) in Hfile. discriminate.
Qed.

(** ** Scenes of the timeline *)

Section Scenes.
Context `{E : Externals}.

Lemma print_step {A} (msg : string) (k : M A) (s : state) :
  (print msg;; k) s = k (State (world s) (stdout s ++ [msg])).
Proof. reflexivity. Qed.

Lemma call_returns {A} (op : World -> result A * World) (s : state) (a : A)
    (w : World) :
  op (world s) = (Return a, w) -> call op s = (Return a, State w (stdout s)).
Proof. intros H. by rewrite call_run, H. Qed.

Lemma call_returned {A} (op : World -> result A * World) (s s' : state) (a : A) :
  call op s = (Return a, s') -> op (world s) = (Return a, world s').
Proof.
  rewrite call_run. destruct (op (world s)) as [r w]. simpl.
  intros H. by inversion H.
Qed.

Lemma generate_image_returns (self : generator) (prompt : string) (index : nat)
    (text_overlay : option string) (visual_effect path : string) (s s' : state) :
  generate_image_from_prompt self prompt index text_overlay visual_effect s
  = (Return path, s') ->
  path = scene_path self index.
Proof.
  unfold generate_image_from_prompt. intros H.
  apply bind_returns in H as ([title_font overlay_font] & s1 & _ & H).
  apply bind_returns in H as (? & s2 & _ & H). by inversion H.
Qed.

Lemma image_step_appends (self : generator) (n : nat)
    (text_overlays : option (list string)) (visual_effects : list string)
    (i : nat) (prompt : string) (image_paths acc' : list string) (s s' : state) :
  image_step self n text_overlays visual_effects (i, prompt) image_paths s
  = (Return acc', s') ->
  exists path : string,
    acc' = image_paths ++ [path] /\ path = scene_path self i /\
    exists (overlay : option string) (effect : string) (s1 s2 : state),
      generate_image_from_prompt self prompt i overlay effect s1
      = (Return path, s2).
Proof.
  unfold image_step. intros H.
  apply bind_returns in H as (overlay & s1 & _ & H).
  apply bind_returns in H as (effect & s2 & _ & H).
  apply bind_returns in H as (? & s3 & _ & H).
  apply bind_returns in H as (path & s4 & Hgen & H).
  inversion H; subst. exists path. split_and!; [done | |].
  - by apply generate_image_returns in Hgen.
  - by exists overlay, effect, s3, s'.
Qed.

Lemma generate_images_returns (self : generator) (prompts : list string)
    (text_overlays : option (list string)) (visual_effects : list string)
    (image_paths : list string) (s s' : state) :
  generate_images self prompts text_overlays visual_effects s
  = (Return image_paths, s') ->
  length image_paths = length prompts /\
  forall (i : nat) (prompt : string),
    prompts !! i = Some prompt ->
    image_paths !! i = Some (scene_path self i) /\
    exists (overlay : option string) (effect : string) (s1 s2 : state),
      generate_image_from_prompt self prompt i overlay effect s1
      = (Return (scene_path self i), s2).
Proof.
  unfold generate_images, enumerate. intros Hrun.
  apply (for_each_appends
           (fun i prompt path =>
              path = scene_path self i /\
              exists (overlay : option string) (effect : string) (s1 s2 : state),
                generate_image_from_prompt self prompt i overlay effect s1
                = (Return path, s2))) in Hrun
    as (ys & -> & Hlen & Hall).
  - split; [done |]. intros i prompt Hi.
    destruct (Hall i prompt Hi) as (path & Hp & -> & Hgen). done.
  - intros i x acc s0 acc' s1 Hstep.
    apply image_step_appends in Hstep as (path & -> & HP). by exists path.
Qed.

Lemma voice_file_for_returns (voice_files : list (option string)) (i : nat) :
  exists file : option string, voice_file_for voice_files i = Return file.
Proof.
  unfold voice_file_for.
  destruct (truthy_list voice_files); [| by eexists].
  rewrite andb_true_l.
  destruct (Nat.ltb_spec i (length voice_files)) as [Hlt | Hge]; [| by eexists].
  destruct (lookup_lt_is_Some_2 voice_files i Hlt) as [y Hy].
  rewrite (py_index_lookup _ _ _ Hy). by eexists.
Qed.

Lemma add_voice_over_returns (i : nat) (clip : scene_clip Pixel AudioClip)
    (voice_file : option string) (s : state) :
  exists (clip' : scene_clip Pixel AudioClip) (s' : state),
    add_voice_over i clip voice_file s = (Return clip', s').
Proof.
  unfold add_voice_over. destruct voice_file as [file |]; [| by eexists _, _].
  rewrite try_except_run, bind_run, call_run.
  destruct (AudioFileClip file (world s)) as [[audio | e] w]; by eexists _, _.
Qed.

Lemma add_background_music_returns (final_clip : Video)
    (background_music : option string) (music_volume : Q) (s : state) :
  exists (video : Video) (s' : state),
    add_background_music final_clip background_music music_volume s
    = (Return video, s').
Proof.
  unfold add_background_music. rewrite bind_run.
  destruct (truthy_opt_str background_music).
  - unfold os_path_exists.
    destruct (path_exists (default "" background_music) (world s));
      [| by eexists _, _].
    rewrite bind_run. simpl. rewrite try_except_run.
    match goal with
    | |- context [attach_music ?a ?b ?c ?d] =>
        destruct (attach_music a b c d) as [[video | e] s1]
    end; by eexists _, _.
  - by eexists _, _.
Qed.

Section Rendering.
Hypothesis Hworks : rendering_works.

Lemma load_fonts_returns (s : state) :
  exists (fonts : Font * Font) (s' : state), load_fonts s = (Return fonts, s').
Proof.
  destruct Hworks as (Hfont & _).
  assert (Hlast : forall s0 : state,
    exists (fonts : Font * Font) (s' : state),
      (title_font ← call ImageFont_load_default;
       overlay_font ← call ImageFont_load_default;
       mret (title_font, overlay_font)) s0 = (Return fonts, s')).
  { intros s0. destruct (Hfont (world s0)) as (f1 & w1 & H1).
    rewrite (bind_step _ _ _ _ _ (call_returns _ _ _ _ H1)).
    destruct (Hfont w1) as (f2 & w2 & H2).
    rewrite (bind_step _ _ (State w1 (stdout s0)) _ _
               (call_returns _ (State w1 (stdout s0)) _ _ H2)).
    by eexists _, _. }
  unfold load_fonts. rewrite try_except_run.
  match goal with
  | |- context [match ?m s with _ => _ end] =>
      destruct (m s) as [[fonts | e] s1]
  end; [by eexists _, _ |].
  rewrite try_except_run.
  match goal with
  | |- context [match ?m s1 with _ => _ end] =>
      destruct (m s1) as [[fonts | e'] s2]
  end; [by eexists _, _ |].
  apply Hlast.
Qed.

Lemma generate_image_runs (self : generator) (prompt : string) (index : nat)
    (text_overlay : option string) (visual_effect : string) (s : state) :
  exists s' : state,
    generate_image_from_prompt self prompt index text_overlay visual_effect s
    = (Return (scene_path self index), s').
Proof.
  unfold generate_image_from_prompt.
  destruct (load_fonts_returns s) as ([title_font overlay_font] & s1 & Hfonts).
  rewrite (bind_step _ _ _ _ _ Hfonts).
  destruct Hworks as (_ & Hsave & _).
  match goal with
  | |- context [Image_save ?img ?path] =>
      destruct (Hsave img path (world s1)) as (w' & Hw');
      rewrite (bind_step _ _ _ _ _ (call_returns _ _ _ _ Hw'))
  end.
  by eexists.
Qed.

Lemma create_scene_runs (image_path : string) (duration : Q) (effect : string)
    (s : state) :
  exists (clip : scene_clip Pixel AudioClip) (s' : state),
    create_scene image_path duration effect s = (Return clip, s').
Proof.
  unfold create_scene. destruct Hworks as (_ & _ & Hclip & _).
  destruct (Hclip image_path (world s)) as (frame & w' & Hw').
  rewrite (bind_step _ _ _ _ _ (call_returns _ _ _ _ Hw')).
  by eexists _, _.
Qed.

Lemma generate_images_runs (self : generator) (prompts : list string)
    (text_overlays : option (list string)) (visual_effects : list string)
    (s : state) :
  exists (image_paths : list string) (s' : state),
    generate_images self prompts text_overlays visual_effects s
    = (Return image_paths, s').
Proof.
  unfold generate_images, enumerate.
  destruct (for_each_appends_total (fun _ _ _ => True)
              (image_step self (length prompts) text_overlays visual_effects)
              prompts 0%nat) with (acc := @nil string) (s := s)
    as (ys & s' & Hrun & _).
  - intros j prompt acc s0 _. unfold image_step.
    rewrite (lift_run _ _ _ _ (overlay_for_eq _ _)).
    unfold visual_effect_for.
    rewrite (lift_run _ _ _ _ (effect_for_eq _ _ _)).
    rewrite print_step.
    match goal with
    | |- context [mbind _ (generate_image_from_prompt ?a ?b ?c ?d ?e) ?st] =>
        destruct (generate_image_runs a b c d e st) as (s1 & H1)
    end.
    rewrite (bind_step _ _ _ _ _ H1). by eexists _, _.
  - by exists ys, s'.
Qed.

Lemma create_clips_runs (scene_duration : Q) (camera_effects : list string)
    (voice_files : list (option string)) (image_paths : list string)
    (s : state) :
  exists (clips : list (scene_clip Pixel AudioClip)) (s' : state),
    create_clips scene_duration camera_effects voice_files image_paths s
    = (Return clips, s').
Proof.
  unfold create_clips, enumerate.
  destruct (for_each_appends_total (fun _ _ _ => True)
              (clip_step scene_duration camera_effects voice_files)
              image_paths 0%nat)
    with (acc := @nil (scene_clip Pixel AudioClip)) (s := s)
    as (ys & s' & Hrun & _).
  - intros j img_path acc s0 _. unfold clip_step, camera_effect_for.
    rewrite (lift_run _ _ _ _ (effect_for_eq _ _ _)).
    match goal with
    | |- context [create_scene ?a ?b ?c] =>
        destruct (create_scene_runs a b c s0) as (clip & s1 & H1)
    end.
    rewrite (bind_step _ _ _ _ _ H1).
    destruct (voice_file_for_returns voice_files (0 + j)) as (file & Hfile).
    rewrite (lift_run _ _ _ _ Hfile).
    destruct (add_voice_over_returns (0 + j) clip file s1) as (clip' & s2 & H2).
    rewrite (bind_step _ _ _ _ _ H2). by eexists _, _.
  - by exists ys, s'.
Qed.

End Rendering.

End Scenes.

Lemma generate_voice_overs_returns `{E : Externals} (self : generator)
    (voice_over_texts : option (list string)) (s : state) :
  exists (voice_files : list (option string)) (s' : state),
    generate_voice_overs self voice_over_texts s = (Return voice_files, s').
Proof.
  destruct voice_over_texts as [texts |].
  - destruct (generate_voice_overs_runs self texts s) as (vf & s' & H & _).
    by exists vf, s'.
  - by exists [], s.
Qed.


Lemma rendering_works_demo : @rendering_works Demo.externals.
Proof.
  split_and!; simpl.
  - intros w. by exists tt, w.
  - intros img path w. by eexists.
  - intros path w. by eexists _, _.
  - intros [| c clips] method w Hne; [done |]. by eexists _, _.
  - intros video path fps codec audio_codec w. by eexists.
Qed.


Example narration_unavailable :
  (generate_voice_overs Demo.self (Some ["Hello"; ""; "World"])
     Demo.silent_studio).1
  = Return [None; None; None].
Proof. vm_compute. reflexivity. Qed.

Example narration_partly_fails :
  (generate_voice_overs Demo.self (Some ["Hello"; "<fail>"; ""; "World"])
     Demo.studio).1
  = Return [Some "generated_videos/temp/voice_0.mp3"; None; None;
            Some "generated_videos/temp/voice_3.mp3"].
Proof. vm_compute. reflexivity. Qed.

(** ** Background music *)

Section Music.
Context `{E : Externals}.

Lemma Qltb_lt (x y : Q) : Qltb x y = true <-> (x < y)%Q.
Proof.
  unfold Qltb. rewrite negb_true_iff. split.
  - intros H. apply Qnot_le_lt. intros Hle.
    apply Qle_bool_iff in Hle. congruence.
  - intros H. destruct (Qle_bool y x) eqn:Hb; [| done].
    apply Qle_bool_iff in Hb. by apply Qlt_not_le in H.
Qed.

Lemma fit_music_eq (music : AudioClip) (timeline_duration music_volume : Q)
    (s : state) :
  fit_music music timeline_duration music_volume s
  = (shaped ← call (shaping_call music timeline_duration);
     call (volumex shaped music_volume)) s.
Proof.
  unfold fit_music, shaping_call.
  by destruct (Qltb (audio_duration music) timeline_duration).
Qed.

Lemma fit_music_returned (music fitted : AudioClip)
    (timeline_duration music_volume : Q) (s s' : state) :
  fit_music music timeline_duration music_volume s = (Return fitted, s') ->
  exists (shaped : AudioClip) (w : World),
    shaping_call music timeline_duration (world s) = (Return shaped, w) /\
    volumex shaped music_volume w = (Return fitted, world s').
Proof.
  rewrite fit_music_eq. intros H.
  apply bind_returns in H as (shaped & s1 & Hshape & Hvol).
  apply call_returned in Hshape, Hvol. by exists shaped, (world s1).
Qed.

Lemma shaping_call_duration (Hdur : durations_as_documented)
    (music shaped : AudioClip) (timeline_duration : Q) (w w' : World) :
  shaping_call music timeline_duration w = (Return shaped, w') ->
  (audio_duration shaped == timeline_duration)%Q.
Proof.
  destruct Hdur as (Hloop & Hsub & _). unfold shaping_call.
  destruct (Qltb (audio_duration music) timeline_duration); intros H.
  - by apply Hloop in H.
  - apply Hsub in H. rewrite H. ring.
Qed.

Lemma attach_music_returned (Hdur : durations_as_documented)
    (final_clip video : Video) (file : string) (music_volume : Q)
    (s s' : state) :
  attach_music final_clip file music_volume s = (Return video, s') ->
  exists music : AudioClip,
    (audio_duration music == video_duration final_clip)%Q /\
    ((video_audio final_clip = None /\
      video = video_set_audio final_clip music) \/
     (exists (narration mix : AudioClip) (w w' : World),
        video_audio final_clip = Some narration /\
        CompositeAudioClip [narration; music] w = (Return mix, w') /\
        video = video_set_audio final_clip mix)).
Proof.
  unfold attach_music. intros H.
  apply bind_returns in H as (music0 & s1 & _ & H).
  apply bind_returns in H as (music & s2 & Hfit & Hmix).
  apply fit_music_returned in Hfit as (shaped & w & Hshape & Hvol).
  exists music. split.
  - pose proof (proj2 (proj2 Hdur)) as Hvolx. rewrite (Hvolx _ _ _ _ _ Hvol).
    by apply (shaping_call_duration Hdur) in Hshape.
  - unfold mix_music in Hmix.
    destruct (video_audio final_clip) as [narration |].
    + right. apply bind_returns in Hmix as (mix & s3 & Hcomp & Hret).
      apply call_returned in Hcomp. inversion Hret; subst.
      by exists narration, mix, (world s2), (world s').
    + left. by inversion Hmix.
Qed.

End Music.


Lemma durations_as_documented_demo : @durations_as_documented Demo.externals.
Proof.
  split_and!; simpl.
  - intros music d w looped w'. unfold Demo.loop_audio.
    destruct (Qle_bool (Demo.audio_length music) 0); [discriminate |].
    intros H. by inversion H.
  - intros music t_start t_end w cut w' H. by inversion H.
  - intros music factor w scaled w' H. by inversion H.
Qed.


(** C9: the music step never raises.  With no music path, an empty one,
    or a path that does not exist, the step returns the clip it was
    given and changes nothing, not even the output.  When the path
    exists and any part of the attachment raises (opening the file,
    looping or trimming it, scaling its volume, mixing it), the exception
    is caught, one warning line is printed, and the step returns the
    clip it was given; that clip is what [write_videofile] then gets. *)
Theorem music_failure_leaves_clip `{E : Externals} (final_clip : Video)
    (background_music : option string) (music_volume : Q) (s : state) :
  let file := default "" background_music in
  let started :=
    State (world s) (stdout s ++ ["🎵 Adding background music..."]) in
  (exists (video : Video) (s' : state),
     add_background_music final_clip background_music music_volume s
     = (Return video, s')) /\
  (truthy_opt_str background_music && path_exists file (world s) = false ->
     add_background_music final_clip background_music music_volume s
     = (Return final_clip, s)) /\
  (truthy_opt_str background_music && path_exists file (world s) = true ->
     forall (e : exception) (s1 : state),
       attach_music final_clip file music_volume started = (Raise e, s1) ->
       add_background_music final_clip background_music music_volume s
       = (Return final_clip,
          State (world s1) (stdout s1 ++ [music_warning e]))) /\
  (forall (e : exception) (w : World),
     AudioFileClip file (world started) = (Raise e, w) ->
     attach_music final_clip file music_volume started
     = (Raise e, State w (stdout started))) /\
  (forall (music : AudioClip) (w : World) (e : exception) (s1 : state),
     AudioFileClip file (world started) = (Return music, w) ->
     fit_music music (video_duration final_clip) music_volume
       (State w (stdout started)) = (Raise e, s1) ->
     attach_music final_clip file music_volume started = (Raise e, s1)) /\
  (forall (music fitted : AudioClip) (w : World) (e : exception)
          (s1 s2 : state),
     AudioFileClip file (world started) = (Return music, w) ->
     fit_music music (video_duration final_clip) music_volume
       (State w (stdout started)) = (Return fitted, s1) ->
     mix_music final_clip fitted s1 = (Raise e, s2) ->
     attach_music final_clip file music_volume started = (Raise e, s2)) /\
  (forall (self : generator) (prompts : list string) (scene_duration : Q)
          (text_overlays camera_effects visual_effects : option (list string))
          (voice_over_texts : option (list string)) (output_filename : string)
          (s0 s' : state) (path : string),
     generate_video self prompts scene_duration text_overlays camera_effects
       visual_effects background_music voice_over_texts music_volume
       output_filename s0 = (Return path, s') ->
     exists (clips : list (scene_clip Pixel AudioClip)) (timeline video : Video)
            (s1 s2 : state) (w w' : World),
       concatenate_videoclips clips "compose" w = (Return timeline, world s1) /\
       add_background_music timeline background_music music_volume s1
       = (Return video, s2) /\
       write_videofile video (path_join (output_dir self) output_filename)
         24 "libx264" "aac" (world s2) = (Return tt, w')).
Proof.
  intros file started.
  assert (Hguard : forall b : bool,
    truthy_opt_str background_music && path_exists file (world s) = b ->
    (if truthy_opt_str background_music then os_path_exists file
     else mret false) s = (Return b, s)).
  { intros b <-. by destruct (truthy_opt_str background_music). }
  split_and!.
  - apply add_background_music_returns.
  - intros Hno. unfold add_background_music.
    by rewrite (bind_step _ _ _ _ _ (Hguard false Hno)).
  - intros Hyes e s1 Hraise. unfold add_background_music.
    rewrite (bind_step _ _ _ _ _ (Hguard true Hyes)).
    rewrite print_step, try_except_run. fold file. fold started.
    by rewrite Hraise.
  - intros e w Hopen. unfold attach_music.
    apply bind_raises. by rewrite call_run, Hopen.
  - intros music w e s1 Hopen Hfit. unfold attach_music.
    rewrite (bind_step _ _ _ _ _ (call_returns _ _ _ _ Hopen)).
    by apply bind_raises.
  - intros music fitted w e s1 s2 Hopen Hfit Hmix. unfold attach_music.
    rewrite (bind_step _ _ _ _ _ (call_returns _ _ _ _ Hopen)).
    by rewrite (bind_step _ _ _ _ _ Hfit).
  - intros self prompts scene_duration text_overlays camera_effects
      visual_effects voice_over_texts output_filename s0 s' path Hrun.
    unfold generate_video in Hrun.
    apply bind_returns in Hrun as (video & s2 & Hasm & Hrun).
    rewrite print_step in Hrun.
    apply bind_returns in Hrun as ([] & s3 & Hwrite & _).
    apply call_returned in Hwrite. simpl in Hwrite.
    unfold assemble in Hasm. rewrite print_step in Hasm.
    apply bind_returns in Hasm as (voice_files & s4 & _ & Hasm).
    rewrite print_step in Hasm.
    apply bind_returns in Hasm as (image_paths & s5 & _ & Hasm).
    rewrite print_step in Hasm.
    apply bind_returns in Hasm as (clips & s6 & _ & Hasm).
    rewrite print_step in Hasm.
    apply bind_returns in Hasm as (timeline & s1 & Hcat & Hmusic).
    apply call_returned in Hcat.
    by eexists clips, timeline, video, s1, s2, _, _.
Qed.

Example corrupt_music_is_skipped :
  let clip := SceneClip "scene.png" [[1; 2]; [3; 4]]%nat 5 None [] None in
  let timeline := Demo.DemoVideo [clip; clip] None in
  @add_background_music Demo.externals timeline (Some "corrupt.mp3") (3 # 10)
    Demo.studio
  = (Return timeline,
     State (world Demo.studio)
       ["🎵 Adding background music...";
        "⚠️  Could not add background music: could not decode corrupt.mp3"]).
Proof. vm_compute. reflexivity. Qed.

Example missing_music_is_skipped :
  let clip := SceneClip "scene.png" [[1; 2]; [3; 4]]%nat 5 None [] None in
  let timeline := Demo.DemoVideo [clip; clip] None in
  @add_background_music Demo.externals timeline (Some "absent.mp3") (3 # 10)
    Demo.studio
  = (Return timeline, Demo.studio).
Proof. vm_compute. reflexivity. Qed.

Example short_music_is_looped :
  let clip := SceneClip "scene.png" [[1; 2]; [3; 4]]%nat 5 None [] None in
  let timeline := Demo.DemoVideo [clip; clip] None in
  (@add_background_music Demo.externals timeline (Some "short.mp3") (3 # 10)
     Demo.studio).1
  = Return (Demo.DemoVideo [clip; clip]
              (Some (Demo.DemoAudio "short.mp3" 10 (3 # 10)))).
Proof. vm_compute. reflexivity. Qed.

(** * Further properties of the camera transforms *)

(** X1: the crop window of [zoom_in] is centred: the margin below it and
    the margin above it differ by at most one pixel, the odd pixel going
    below, and the same holds for the right and left margins. *)
Theorem zoom_window_centred (duration t : Q) (h w : Z) :
  let win := Camera.zoom_window duration h w t in
  let below := h - (Camera.top win + Camera.new_h win) in
  let right := w - (Camera.left win + Camera.new_w win) in
  0 <= below - Camera.top win <= 1 /\ 0 <= right - Camera.left win <= 1.
Proof.
  intros win below right. subst below right win.
  unfold Camera.zoom_window, Camera.crop_window, Py.floordiv. simpl.
  set (nh := Py.int _). set (nw := Py.int _).
  pose proof (Z.div_mod (h - nh) 2). pose proof (Z.mod_pos_bound (h - nh) 2).
  pose proof (Z.div_mod (w - nw) 2). pose proof (Z.mod_pos_bound (w - nw) 2).
  lia.
Qed.

Lemma divide_by_larger (a b c : Q) :
  (0 <= a)%Q -> (0 < b)%Q -> (b <= c)%Q -> (a / c <= a / b)%Q.
Proof.
  intros Ha Hb Hc.
  assert (Hx : (a / c * c == a)%Q) by (field; lra).
  assert (H0 : (0 <= a / c)%Q) by (apply Qle_shift_div_l; lra).
  apply Qle_shift_div_l; [done |].
  set (x := (a / c)%Q) in *. nra.
Qed.

Lemma zoom_factor_mono (d t1 t2 : Q) :
  (0 < d)%Q -> (t1 <= t2)%Q ->
  (Camera.zoom_factor d t1 <= Camera.zoom_factor d t2)%Q.
Proof.
  intros Hd Ht. unfold Camera.zoom_factor.
  assert (Hr : (t1 / d <= t2 / d)%Q).
  { unfold Qdiv. apply Qmult_le_compat_r; [done |].
    apply Qinv_le_0_compat. lra. }
  set (r1 := (t1 / d)%Q) in *. set (r2 := (t2 / d)%Q) in *. lra.
Qed.



Lemma slice_whole {A} (l : list A) :
  Camera.slice l 0 (0 + Z.of_nat (length l)) = l.
Proof.
  destruct (slice_within l 0 (Z.of_nat (length l))) as [-> _]; [lia | lia | lia |].
  rewrite Nat2Z.id. simpl. apply firstn_all.
Qed.

(** X3: at [t = 0] the zoom takes no crop at all: for a rectangular frame
    the cropped region is the frame itself, so [zoom_in] only resamples
    the whole frame to its own size. *)
Theorem zoom_in_starts_uncropped {Pixel : Type}
    (resize : list (list Pixel) -> Z -> Z -> list (list Pixel))
    (duration : Q) (fr : list (list Pixel)) :
  (0 < duration)%Q -> Camera.rectangular fr ->
  Camera.crop fr (Camera.zoom_window duration (Camera.shape fr).1
                    (Camera.shape fr).2 0) = fr /\
  Camera.zoom_in resize duration fr 0
  = resize fr (Camera.shape fr).2 (Camera.shape fr).1.
Proof.
  intros Hd Hrect.
  assert (Hwin : Camera.zoom_window duration (Camera.shape fr).1
                   (Camera.shape fr).2 0
                 = Camera.Window 0 0 (Camera.shape fr).1 (Camera.shape fr).2).
  { unfold Camera.zoom_window, Camera.crop_window.
    pose proof (zoom_factor_start duration Hd) as Hs.
    rewrite !int_unit_factor by (done || simpl; lia).
    unfold Py.floordiv. by rewrite !Z.sub_diag. }
  assert (Hcrop : Camera.crop fr (Camera.Window 0 0 (Camera.shape fr).1
                                    (Camera.shape fr).2) = fr).
  { unfold Camera.crop. simpl Camera.top. simpl Camera.left.
    simpl Camera.new_h. simpl Camera.new_w.
    change (Camera.shape fr).1 with (Z.of_nat (length fr)).
    rewrite slice_whole.
    rewrite <- (list_fmap_id fr) at 2. apply Forall_fmap_ext_1.
    eapply Forall_impl; [exact Hrect |]. intros row Hrow. simpl in Hrow.
    simpl. rewrite <- Hrow. apply slice_whole. }
  split.
  - by rewrite Hwin.
  - unfold Camera.zoom_in.
    change (Camera.shape fr) with ((Camera.shape fr).1, (Camera.shape fr).2).
    cbv iota beta zeta. by rewrite Hwin, Hcrop.
Qed.

Lemma zoom_in_starts_uncropped_witness :
  let fr := [[1; 2; 3]; [4; 5; 6]]%nat in
  Camera.crop fr (Camera.zoom_window 7 (Camera.shape fr).1
                    (Camera.shape fr).2 0) = fr.
Proof.
  intros fr.
  assert (Hd : (0 < 7)%Q) by reflexivity.
  assert (Hr : Camera.rectangular fr) by (repeat constructor).
  apply (zoom_in_starts_uncropped (fun f _ _ => f) 7 fr Hd Hr).
Defined.

Lemma roll_back {A} (l : list A) (s : Z) :
  0 < s < Z.of_nat (length l) ->
  Camera.roll (Camera.roll l (- s)) s = l.
Proof.
  intros Hs. rewrite roll_left by done.
  unfold Camera.roll, Py.mod_.
  rewrite length_app, length_drop, length_take.
  replace (Z.of_nat (length l - Z.to_nat s + Z.to_nat s `min` length l))
    with (Z.of_nat (length l)) by lia.
  set (n := Z.of_nat (length l)) in *.
  destruct (Z.eqb_spec n 0) as [| _]; [lia |].
  rewrite Z.mod_small by lia.
  destruct (Z.eqb_spec s 0) as [| _]; [lia |].
  assert (Hlen : Z.to_nat (n - s) = length (drop (Z.to_nat s) l))
    by (rewrite length_drop; lia).
  rewrite Hlen, drop_app_length, take_app_length. apply take_drop.
Qed.

(** X4: the pan loses nothing: rolling every row of the panned frame back
    by the same shift gives the original frame again. *)
Theorem pan_right_is_undone {Pixel : Type} (duration t : Q)
    (fr : list (list Pixel)) :
  (0 < duration)%Q -> (0 <= t)%Q -> (t <= duration)%Q ->
  Camera.rectangular fr ->
  Camera.roll_columns (Camera.pan_right duration fr t)
    (Camera.pan_shift duration (Camera.shape fr).2 t) = fr.
Proof.
  intros Hd H0 H1 Hrect. set (w := (Camera.shape fr).2).
  assert (Hw : 0 <= w) by (subst w; simpl; lia).
  destruct (pan_shift_range duration t w Hd H0 H1 Hw) as [Hs0 Hs10].
  rewrite pan_right_eq. fold w. set (shift := Camera.pan_shift duration w t) in *.
  unfold Camera.roll_columns.
  destruct (Z.ltb_spec 0 shift) as [Hpos | Hzero].
  - rewrite <- list_fmap_compose. rewrite <- (list_fmap_id fr) at 2.
    apply Forall_fmap_ext_1. eapply Forall_impl; [exact Hrect |].
    intros row Hrow. cbv beta in Hrow. fold w in Hrow.
    change (Camera.roll (Camera.roll row (- shift)) shift = id row).
    unfold id. apply roll_back. lia.
  - replace shift with 0 by lia. rewrite <- (list_fmap_id fr) at 2.
    apply Forall_fmap_ext_1, Forall_forall. intros row _.
    unfold Camera.roll, Py.mod_. by rewrite Zmod_0_l.
Qed.

Lemma pan_right_is_undone_witness :
  let fr := [[1; 2; 3; 4; 5; 6; 7; 8; 9; 10; 11; 12; 13; 14; 15; 16; 17; 18; 19; 20]]%nat in
  Camera.roll_columns (Camera.pan_right 2 fr 1)
    (Camera.pan_shift 2 (Camera.shape fr).2 1) = fr.
Proof.
  intros fr.
  assert (Hd : (0 < 2)%Q) by reflexivity.
  assert (H0 : (0 <= 1)%Q) by discriminate.
  assert (H1 : (1 <= 2)%Q) by discriminate.
  assert (Hr : Camera.rectangular fr) by (repeat constructor).
  apply (pan_right_is_undone 2 1 fr Hd H0 H1 Hr).
Defined.

(** * Further properties of the scene images *)

(** X6: the three channels of the base colour are not independent: the
    green and blue channels are fixed by the red one, so the colour
    depends only on the hash modulo 200 (at most 200 colours), and the
    green channel always has an even offset from 50. *)
Theorem base_color_one_residue `{E : Externals} (prompt : string) :
  let r := (base_color prompt).1.1 in
  let g := (base_color prompt).1.2 in
  let b := (base_color prompt).2 in
  g = (2 * (r - 50)) mod 200 + 50 /\
  b = (3 * (r - 50)) mod 200 + 50 /\
  (g - 50) mod 2 = 0 /\
  forall prompt' : string,
    hash prompt' mod 200 = hash prompt mod 200 ->
    base_color prompt' = base_color prompt.
Proof.
  assert (Hres : forall (k x : Z), (x * k) mod 200 = (k * (x mod 200)) mod 200).
  { intros k x. rewrite (Z.mul_comm x k). by rewrite Z.mul_mod_idemp_r. }
  unfold base_color, Py.mod_. simpl. split_and!.
  - rewrite Z.add_simpl_r. by rewrite Hres.
  - rewrite Z.add_simpl_r. by rewrite Hres.
  - rewrite Z.add_simpl_r.
    rewrite Z.mod_mod_divide by (by exists 100).
    by rewrite Z.mod_mul.
  - intros prompt' Hsame.
    rewrite (Hres 2 (hash prompt')), (Hres 3 (hash prompt')).
    rewrite (Hres 2 (hash prompt)), (Hres 3 (hash prompt)).
    by rewrite Hsame.
Qed.

(** X16: the scratch files never collide: the image of one scene is never
    the narration file of any scene, and two scenes never share an image
    file or a narration file. *)
Theorem scratch_paths_distinct (self : generator) (i j : nat) :
  scene_path self i <> voice_path self j /\
  (scene_path self i = scene_path self j -> i = j) /\
  (voice_path self i = voice_path self j -> i = j).
Proof.
  split_and!; [| apply scene_path_inj | apply voice_path_inj].
  unfold scene_path, voice_path, path_join. intros H.
  do 2 apply (inj (String.app _)) in H. discriminate.
Qed.

Lemma inject_Z_nonneg (n : Z) : 0 <= n -> (0 <= inject_Z n)%Q.
Proof. intros H. change 0%Q with (inject_Z 0). by rewrite <- Zle_Qle. Qed.

Lemma row_progress (height y : Z) :
  0 <= y < height ->
  (0 <= inject_Z y / inject_Z height)%Q /\
  (inject_Z y / inject_Z height <= 1)%Q.
Proof.
  intros Hy. apply unit_ratio.
  - change 0%Q with (inject_Z 0). rewrite <- Zlt_Qlt. lia.
  - apply inject_Z_nonneg. lia.
  - rewrite <- Zle_Qle. lia.
Qed.

Lemma half_floor (c : Z) : Qfloor (inject_Z c * (5 # 10)) = c / 2.
Proof.
  rewrite <- (Qfloor_comp (inject_Z c / inject_Z 2)).
  - symmetry. apply Zdiv_Qdiv.
  - field.
Qed.

Lemma _add_gradient_rows `{E : Externals} (img : Img) (base : Z * Z * Z) :
  _add_gradient img base
  = Image_blend img
      (foldl (fun gradient y =>
                draw_line gradient (0, y) ((Image_size img).1, y)
                  (ink_of (gradient_color base (Image_size img).2 y)))
             (Image_new "RGB" (Image_size img) (band 0))
             (range (Image_size img).2))
      (7 # 10).
Proof.
  unfold _add_gradient. destruct (Image_size img) as [width height].
  by destruct base as [[r g] b].
Qed.



Lemma foldl_bind_fmap {A B C D} (f : A -> D -> A) (h : B -> C -> D)
    (l : list B) (l' : list C) (a : A) :
  foldl f a (x ← l; h x <$> l')
  = foldl (fun acc x => foldl (fun acc' y => f acc' (h x y)) acc l') a l.
Proof.
  revert a. induction l as [| x l IH]; intros a; [done |].
  rewrite bind_cons, foldl_app, foldl_fmap. simpl. apply IH.
Qed.

Lemma length_bind_fmap {B C D} (h : B -> C -> D) (l : list B) (l' : list C) :
  length (x ← l; h x <$> l') = (length l * length l')%nat.
Proof.
  induction l as [| x l IH]; [done |].
  rewrite bind_cons, length_app, length_fmap, IH. simpl. lia.
Qed.

Lemma _draw_text_with_outline_stamps `{E : Externals} (img : Img)
    (text : string) (position : Z * Z) (font : Font)
    (fill_color outline_color : ink) (outline_width : Z) :
  let origin := text_origin position (draw_textbbox img (0, 0) text font) in
  _draw_text_with_outline img text position font fill_color outline_color
    outline_width
  = draw_text
      (foldl (fun im p => draw_text im p text font outline_color) img
             (outline_positions origin outline_width))
      origin text font fill_color.
Proof.
  unfold _draw_text_with_outline, text_origin, outline_positions.
  destruct position as [x y].
  destruct (draw_textbbox img (0, 0) text font) as [[[x0 y0] x1] y1].
  cbv zeta. by rewrite foldl_bind_fmap.
Qed.



Lemma _add_vignette_boxes `{E : Externals} (img : Img) :
  _add_vignette img
  = Image_composite img
      (Image_new "RGB" (Image_size img) (rgb 0 0 0))
      (GaussianBlur 100
         (foldl (fun mask i =>
                   draw_rectangle mask
                     (vignette_rectangle (Image_size img).1 (Image_size img).2 i)
                     (band i))
                (Image_new "L" (Image_size img) (band 0))
                (range 255))).
Proof. unfold _add_vignette. by destruct (Image_size img) as [width height]. Qed.

(** X9: the vignette mask is built from 255 boxes, one per value 0 to 254,
    each inset by one more pixel.  On a canvas at least 508 pixels wide
    and high, as the 1920 by 1080 one is, every box has its corners in
    order and lies inside the box before it, so brighter values are
    painted only nearer the centre. *)
Theorem vignette_boxes_nest `{E : Externals} (img : Img) (i : Z) :
  let width := (Image_size img).1 in
  let height := (Image_size img).2 in
  508 <= width -> 508 <= height -> i ∈ range 255 ->
  let '(x0, y0, x1, y1) := vignette_rectangle width height i in
  let '(x0', y0', x1', y1') := vignette_rectangle width height (i + 1) in
  _add_vignette img
  = Image_composite img
      (Image_new "RGB" (Image_size img) (rgb 0 0 0))
      (GaussianBlur 100
         (foldl (fun mask j =>
                   draw_rectangle mask (vignette_rectangle width height j)
                     (band j))
                (Image_new "L" (Image_size img) (band 0))
                (range 255))) /\
  length (range 255) = 255%nat /\
  0 <= i <= 254 /\
  x0 <= x1 /\ y0 <= y1 /\
  (i < 254 -> x0 <= x0' /\ x0' <= x1' /\ x1' <= x1 /\
               y0 <= y0' /\ y0' <= y1' /\ y1' <= y1).
Proof.
  intros width height Hw Hh Hi. unfold vignette_rectangle.
  apply elem_of_seqZ in Hi.
  split_and!; [apply _add_vignette_boxes | done | lia | lia | lia | lia | lia].
Qed.

Lemma vignette_boxes_nest_witness :
  vignette_rectangle 1920 1080 254 = (254, 254, 1666, 826) /\
  length (range 255) = 255%nat.
Proof.
  split; [reflexivity |].
  assert (Hw : 508 <= (@Image_size Demo.externals tt).1) by (simpl; lia).
  assert (Hh : 508 <= (@Image_size Demo.externals tt).2) by (simpl; lia).
  assert (Hi : 254 ∈ range 255) by (apply elem_of_seqZ; lia).
  pose proof (@vignette_boxes_nest Demo.externals tt 254 Hw Hh Hi) as H.
  apply H.
Defined.

(** * Further properties of the pipeline *)

(** X5: whatever camera effect is asked for, the clip that [create_scene]
    returns has the scene's duration, no audio and the same two fades;
    an effect other than ["zoom"] and ["pan"] (["static"], or any other
    tag) attaches no frame transform at all, so the clip shows the still
    image at every time. *)
Theorem static_scene_is_still `{E : Externals} (image_path : string)
    (duration : Q) (effect : string) (s s' : state)
    (clip : scene_clip Pixel AudioClip) :
  create_scene image_path duration effect s = (Return clip, s') ->
  clip_duration clip = duration /\
  clip_audio clip = None /\
  clip_fades clip = [fadein (5 # 10); fadeout (5 # 10)] /\
  stdout s' = stdout s /\
  (effect <> "zoom" -> effect <> "pan" ->
   clip_fl clip = None /\ forall t : Q, get_frame clip t = clip_frame clip).
Proof.
  intros Hrun.
  pose proof (create_scene_returns _ _ _ _ _ _ Hrun) as (_ & Hd & Ha & Hf & _).
  split_and!; try done.
  - unfold create_scene in Hrun.
    apply bind_returns in Hrun as (frame & s1 & Hload & Hrun).
    rewrite call_run in Hload. inversion Hload; subst.
    destruct (String.eqb effect "zoom"), (String.eqb effect "pan");
      by inversion Hrun.
  - intros Hz Hp. apply String.eqb_neq in Hz, Hp.
    assert (Hfl : clip_fl clip = None).
    { unfold create_scene in Hrun.
      apply bind_returns in Hrun as (frame & s1 & _ & Hrun).
      rewrite Hz, Hp in Hrun. by inversion Hrun. }
    split; [done |]. intros t. unfold get_frame. by rewrite Hfl.
Qed.

Lemma static_scene_is_still_witness :
  exists (clip : scene_clip nat Demo.demo_audio),
    @create_scene Demo.externals "scene.png" 5 "static" Demo.studio
    = (Return clip, Demo.studio) /\
    clip_fl clip = None /\
    clip_fades clip = [fadein (5 # 10); fadeout (5 # 10)].
Proof.
  eexists. split; [reflexivity |].
  assert (Hz : "static" <> "zoom") by discriminate.
  assert (Hp : "static" <> "pan") by discriminate.
  destruct (@static_scene_is_still Demo.externals "scene.png" 5 "static"
              Demo.studio Demo.studio _ eq_refl) as (_ & _ & Hf & _ & Hstill).
  split; [exact (proj1 (Hstill Hz Hp)) | exact Hf].
Defined.

(** X10: an overlay that is the empty string draws nothing: the scene is
    generated exactly as when no overlay list is given at all. *)
Theorem empty_overlay_draws_nothing `{E : Externals} (self : generator)
    (n i : nat) (text_overlays : list string) (visual_effects : list string)
    (prompt : string) (image_paths : list string) (s : state) :
  text_overlays !! i = Some "" ->
  image_step self n (Some text_overlays) visual_effects (i, prompt)
    image_paths s
  = image_step self n None visual_effects (i, prompt) image_paths s.
Proof.
  intros Hi. unfold image_step.
  rewrite !(lift_run _ _ _ _ (overlay_for_eq _ _)). simpl. by rewrite Hi.
Qed.

Lemma empty_overlay_draws_nothing_witness :
  image_step Demo.self 2 (Some ["Hello"; ""]) ["gradient"] (1%nat, "B") []
    Demo.studio
  = image_step Demo.self 2 None ["gradient"] (1%nat, "B") [] Demo.studio.
Proof.
  apply (@empty_overlay_draws_nothing Demo.externals Demo.self 2 1
           ["Hello"; ""] ["gradient"] "B" [] Demo.studio eq_refl).
Defined.

Lemma lookup_replicate_lt {A} (n i : nat) (x : A) :
  (i < n)%nat -> replicate n x !! i = Some x.
Proof. intros H. by apply lookup_replicate_2. Qed.

(** X11: when the list of visual effects is left out, every scene is
    rendered with ["gradient"], and when the list of camera effects is
    left out every scene zooms; a list that is given but empty gives
    ["none"] and ["zoom"] instead.  So leaving the visual effects out and
    passing an empty list do not mean the same. *)
Theorem omitted_lists_use_gradient_and_zoom (prompts : list string) (i : nat) :
  (i < length prompts)%nat ->
  visual_effect_for (default (replicate (length prompts) "gradient") None) i
  = Return "gradient" /\
  camera_effect_for (default (replicate (length prompts) "zoom") None) i
  = Return "zoom" /\
  visual_effect_for (default (replicate (length prompts) "gradient") (Some [])) i
  = Return "none" /\
  camera_effect_for (default (replicate (length prompts) "zoom") (Some [])) i
  = Return "zoom".
Proof.
  intros Hi. unfold visual_effect_for, camera_effect_for.
  rewrite !effect_for_eq. simpl.
  by rewrite !lookup_replicate_lt.
Qed.

Lemma omitted_lists_use_gradient_and_zoom_witness :
  visual_effect_for (default (replicate 2 "gradient") None) 1 = Return "gradient" /\
  visual_effect_for (default (replicate 2 "gradient") (Some [])) 1 = Return "none".
Proof.
  assert (Hi : (1 < length ["A"; "B"])%nat) by (simpl; lia).
  destruct (omitted_lists_use_gradient_and_zoom ["A"; "B"] 1 Hi)
    as (H1 & _ & H3 & _).
  split; [exact H1 | exact H3].
Defined.

(** X12: with no narration texts, or an empty list of them, the narration
    step returns no files, prints nothing and leaves the world alone; and
    in any run of the clip loop, a clip whose index has no narration file
    (the entry is missing or [None]) carries no audio. *)
Theorem no_narration_no_audio `{E : Externals} (self : generator)
    (scene_duration : Q) (camera_effects image_paths : list string)
    (voice_files : list (option string))
    (clips : list (scene_clip Pixel AudioClip)) (s s2 s3 : state) :
  create_clips scene_duration camera_effects voice_files image_paths s2
  = (Return clips, s3) ->
  generate_voice_overs self None s = (Return [], s) /\
  generate_voice_overs self (Some []) s = (Return [], s) /\
  forall (i : nat) (clip : scene_clip Pixel AudioClip),
    clips !! i = Some clip ->
    voice_files !! i = None \/ voice_files !! i = Some None ->
    clip_audio clip = None.
Proof.
  intros Hclips. split_and!; [done | done |].
  intros i clip Hi Hnone.
  apply create_clips_returns in Hclips as (Hn & Hclip).
  assert (Hlt : (i < length image_paths)%nat)
    by (rewrite <- Hn; by apply lookup_lt_Some in Hi).
  destruct (lookup_lt_is_Some_2 image_paths i Hlt) as [img_path Himg].
  destruct (Hclip i img_path Himg) as (clip' & Hi' & _ & _ & Hfrom).
  assert (clip' = clip) as -> by congruence.
  destruct (clip_audio clip) as [audio |] eqn:Haudio; [| done].
  destruct (Hfrom audio eq_refl) as (file & w & w' & Hfile & _).
  destruct Hnone; congruence.
Qed.

Lemma no_narration_no_audio_witness :
  exists (clips : list (scene_clip nat Demo.demo_audio)) (s3 : state),
    @create_clips Demo.externals 5 ["zoom"] [] ["a.png"; "b.png"] Demo.studio
    = (Return clips, s3) /\
    forall (i : nat) (clip : scene_clip nat Demo.demo_audio),
      clips !! i = Some clip -> clip_audio clip = None.
Proof.
  eexists _, _. split; [reflexivity |].
  intros i clip Hi.
  destruct (@no_narration_no_audio Demo.externals Demo.self 5 ["zoom"]
              ["a.png"; "b.png"] [] _ Demo.studio Demo.studio _ eq_refl)
    as (_ & _ & H).
  apply (H i clip Hi). by left.
Defined.

(** X13: attaching the narration to a clip never raises.  When the audio
    file opens, the clip gets that audio and nothing is printed; when
    opening it raises, the clip is kept as it was, without audio of its
    own, and one warning naming the scene (counted from 1) is printed. *)
Theorem voice_attach_failure_is_caught `{E : Externals} (i : nat)
    (clip : scene_clip Pixel AudioClip) (file : string) (s : state) :
  (exists (clip' : scene_clip Pixel AudioClip) (s' : state),
     add_voice_over i clip (Some file) s = (Return clip', s')) /\
  (forall (audio : AudioClip) (w : World),
     AudioFileClip file (world s) = (Return audio, w) ->
     add_voice_over i clip (Some file) s
     = (Return (set_audio clip audio), State w (stdout s))) /\
  (forall (e : exception) (w : World),
     AudioFileClip file (world s) = (Raise e, w) ->
     add_voice_over i clip (Some file) s
     = (Return clip,
        State w (stdout s ++ ["  ⚠️  Could not add voice to scene "
                              +:+ pretty (i + 1)%nat +:+ ": "
                              +:+ exception_str e]))).
Proof.
  split_and!.
  - apply add_voice_over_returns.
  - intros audio w Hopen. unfold add_voice_over.
    by rewrite try_except_run, bind_run, call_run, Hopen.
  - intros e w Hopen. unfold add_voice_over.
    by rewrite try_except_run, bind_run, call_run, Hopen.
Qed.

Example missing_voice_file_is_skipped :
  let clip := SceneClip "scene.png" [[1; 2]; [3; 4]]%nat 5 None [] None in
  @add_voice_over Demo.externals 2 clip (Some "gone.mp3") Demo.studio
  = (Return clip,
     State (world Demo.studio)
       ["  ⚠️  Could not add voice to scene 3: no such file: gone.mp3"]).
Proof. vm_compute. reflexivity. Qed.

(** X14: failures of the rendering side are not caught.  When saving a
    scene image raises, [generate_image_from_prompt] raises the same
    exception, although the font errors before it are caught; when
    opening the image raises, the turn of the clip loop raises; and when
    the export raises, [generate_video] raises and the success line is not
    printed. *)
Theorem rendering_failures_propagate `{E : Externals} (self : generator)
    (e : exception) :
  (forall (prompt : string) (index : nat) (text_overlay : option string)
          (visual_effect : string) (s s1 : state) (fonts : Font * Font)
          (w : World),
     load_fonts s = (Return fonts, s1) ->
     (forall img' path, Image_save img' path (world s1) = (Raise e, w)) ->
     generate_image_from_prompt self prompt index text_overlay visual_effect s
     = (Raise e, State w (stdout s1))) /\
  (forall (scene_duration : Q) (camera_effects : list string)
          (voice_files : list (option string)) (i : nat) (img_path : string)
          (clips : list (scene_clip Pixel AudioClip)) (s : state) (w : World),
     ImageClip img_path (world s) = (Raise e, w) ->
     clip_step scene_duration camera_effects voice_files (i, img_path) clips s
     = (Raise e, State w (stdout s))) /\
  (forall (prompts : list string) (scene_duration : Q)
          (text_overlays camera_effects visual_effects : option (list string))
          (background_music : option string)
          (voice_over_texts : option (list string)) (music_volume : Q)
          (output_filename : string) (s s1 : state) (video : Video) (w : World),
     assemble self prompts scene_duration text_overlays camera_effects
       visual_effects background_music voice_over_texts music_volume s
     = (Return video, s1) ->
     write_videofile video (path_join (output_dir self) output_filename) 24
       "libx264" "aac" (world s1) = (Raise e, w) ->
     generate_video self prompts scene_duration text_overlays camera_effects
       visual_effects background_music voice_over_texts music_volume
       output_filename s
     = (Raise e,
        State w (stdout s1 ++ ["💾 Exporting video to "
                               +:+ path_join (output_dir self) output_filename
                               +:+ "..."]))).
Proof.
  split_and!.
  - intros prompt index text_overlay visual_effect s s1 [title_font overlay_font]
      w Hfonts Hsave.
    unfold generate_image_from_prompt.
    rewrite (bind_step _ _ _ _ _ Hfonts).
    erewrite bind_raises; [done |]. by rewrite call_run, Hsave.
  - intros scene_duration camera_effects voice_files i img_path clips s w Hopen.
    unfold clip_step, camera_effect_for.
    rewrite (lift_run _ _ _ _ (effect_for_eq _ _ _)).
    apply bind_raises. unfold create_scene.
    apply bind_raises. by rewrite call_run, Hopen.
  - intros prompts scene_duration text_overlays camera_effects visual_effects
      background_music voice_over_texts music_volume output_filename s s1
      video w Hasm Hwrite.
    unfold generate_video. rewrite (bind_step _ _ _ _ _ Hasm), print_step.
    apply bind_raises. rewrite call_run. cbn [world stdout]. by rewrite Hwrite.
Qed.



(** * [cleanup_temp_files] *)

Section CleanupFacts.
Context `{E : Externals}.
Variable glob : string -> string -> World -> result (list string) * World.
Variable unlink : string -> World -> result unit * World.

Lemma for_each_app {A B} (l1 l2 : list A) (body : A -> B -> M B) (acc : B)
    (s : state) :
  for_each (l1 ++ l2) body acc s
  = (acc' ← for_each l1 body acc; for_each l2 body acc') s.
Proof.
  revert acc s. induction l1 as [| x l1 IH]; intros acc s; [done |].
  simpl. rewrite !bind_run. destruct (body x acc s) as [[acc1 | e] s1]; [| done].
  rewrite IH. by rewrite bind_run.
Qed.

Lemma unlink_each_quiet (files : list string) (s s' : state) (r : result unit) :
  unlink_each unlink files s = (r, s') -> stdout s' = stdout s.
Proof.
  unfold unlink_each. revert s. induction files as [| file files IH]; intros s H.
  - by inversion H.
  - simpl in H. rewrite bind_run, call_run in H.
    destruct (unlink file (world s)) as [[[] | e] w]; simpl in H.
    + by apply IH in H.
    + by inversion H.
Qed.

Lemma unlink_each_stops (removed rest : list string) (file : string)
    (e : exception) (s s2 : state) (w : World) :
  unlink_each unlink removed s = (Return tt, s2) ->
  unlink file (world s2) = (Raise e, w) ->
  unlink_each unlink (removed ++ file :: rest) s
  = (Raise e, State w (stdout s)).
Proof.
  intros Hdone Hfail. pose proof (unlink_each_quiet _ _ _ _ Hdone) as Hout.
  unfold unlink_each in *. rewrite for_each_app, (bind_step _ _ _ _ _ Hdone).
  simpl. rewrite bind_run, call_run, Hfail. simpl. by rewrite Hout.
Qed.

End CleanupFacts.

(** X17: [cleanup_temp_files] removes the files of the scratch directory
    in the order of the listing and prints its one line only after the
    last of them.  If the listing raises, or removing some file raises,
    that exception reaches the caller, the files after it are left in
    place, and the line is not printed. *)
Theorem cleanup_stops_at_first_failure `{E : Externals}
    (glob : string -> string -> World -> result (list string) * World)
    (unlink : string -> World -> result unit * World)
    (self : generator) (s : state) :
  (forall (e : exception) (w : World),
     glob (temp_dir self) "*" (world s) = (Raise e, w) ->
     cleanup_temp_files glob unlink self s = (Raise e, State w (stdout s))) /\
  (forall (files : list string) (w : World) (s2 : state),
     glob (temp_dir self) "*" (world s) = (Return files, w) ->
     unlink_each unlink files (State w (stdout s)) = (Return tt, s2) ->
     cleanup_temp_files glob unlink self s
     = (Return tt,
        State (world s2) (stdout s ++ ["🧹 Temporary files cleaned up"]))) /\
  (forall (removed rest : list string) (file : string) (e : exception)
          (w w' : World) (s2 : state),
     glob (temp_dir self) "*" (world s) = (Return (removed ++ file :: rest), w) ->
     unlink_each unlink removed (State w (stdout s)) = (Return tt, s2) ->
     unlink file (world s2) = (Raise e, w') ->
     cleanup_temp_files glob unlink self s = (Raise e, State w' (stdout s))).
Proof.
  split_and!.
  - intros e w Hglob. unfold cleanup_temp_files.
    apply bind_raises. by rewrite call_run, Hglob.
  - intros files w s2 Hglob Hall. unfold cleanup_temp_files.
    rewrite (bind_step _ _ _ _ _ (call_returns _ _ _ _ Hglob)).
    rewrite (bind_step _ _ _ _ _ Hall).
    pose proof (unlink_each_quiet _ _ _ _ _ Hall) as Hout. simpl in Hout.
    unfold print. by rewrite Hout.
  - intros removed rest file e w w' s2 Hglob Hdone Hfail.
    unfold cleanup_temp_files.
    rewrite (bind_step _ _ _ _ _ (call_returns _ _ _ _ Hglob)).
    apply bind_raises.
    by rewrite (unlink_each_stops _ _ _ _ _ _ _ _ Hdone Hfail).
Qed.

Example cleanup_empties_scratch :
  let w := Demo.DemoWorld true
             ["music.mp3"; "generated_videos/temp/scene_0.png";
              "generated_videos/out.mp4"; "generated_videos/temp/voice_0.mp3"] in
  @cleanup_temp_files Demo.externals DemoFiles.glob DemoFiles.unlink Demo.self
    (State w [])
  = (Return tt,
     State (Demo.DemoWorld true ["music.mp3"; "generated_videos/out.mp4"])
       ["🧹 Temporary files cleaned up"]).
Proof. vm_compute. reflexivity. Qed.

(** * Output of [text_to_speech] *)

Lemma call_quiet `{E : Externals} {A} (op : World -> result A * World)
    (s s' : state) (r : result A) :
  call op s = (r, s') -> stdout s' = stdout s.
Proof. rewrite call_run. intros H. by inversion H. Qed.

Lemma synthesize_quiet `{E : Externals} (text output_path : string)
    (s s' : state) (r : result bool) :
  synthesize text output_path s = (r, s') -> stdout s' = stdout s.
Proof.
  unfold synthesize. intros H.
  repeat (rewrite bind_run in H;
          match type of H with
          | context [call ?op ?st] =>
              let Hc := fresh "Hc" in
              destruct (call op st) as [[? | ?] ?] eqn:Hc;
              apply call_quiet in Hc; [| inversion H; subst; congruence]
          end).
  inversion H; subst. congruence.
Qed.

(** X18: [text_to_speech] prints nothing when it succeeds and exactly one
    warning line when it fails, and it prints nothing else either way. *)
Theorem text_to_speech_prints_only_on_failure `{E : Externals}
    (text output_path : string) (s s' : state) (ok : bool) :
  text_to_speech text output_path s = (Return ok, s') ->
  if ok then stdout s' = stdout s
  else exists e : exception, stdout s' = stdout s ++ [tts_warning e].
Proof.
  unfold text_to_speech. rewrite try_except_run.
  destruct (synthesize text output_path s) as [[b | e] s1] eqn:Hsyn.
  - intros H. inversion H; subst.
    pose proof (synthesize_value _ _ _ _ _ Hsyn) as ->.
    by apply synthesize_quiet in Hsyn.
  - rewrite handler_run. intros H. inversion H; subst.
    apply synthesize_quiet in Hsyn. exists e. by rewrite Hsyn.
Qed.

Lemma text_to_speech_prints_only_on_failure_witness :
  exists s' : state,
    text_to_speech "Hello" "voice.mp3" Demo.silent_studio = (Return false, s') /\
    exists e : exception, stdout s' = stdout Demo.silent_studio ++ [tts_warning e].
Proof.
  eexists. split; [reflexivity |].
  apply (@text_to_speech_prints_only_on_failure Demo.externals "Hello"
           "voice.mp3" Demo.silent_studio _ false eq_refl).
Defined.
